(** * Bundle dependency resolver and transactional splitter of the FHIR loader

    A shallow embedding of [fhir-loader/load_fhir.py]: the JSON documents the
    loader walks, the Python operations it applies to them, and the resolver
    stages (reference scanner, stub synthesizer, reference map builder,
    reference rewriter, entry orderer, splitter, bundle processor).

    Conventions.
    - A value produced by [json.loads] is a [json].  A Python [dict] keeps its
      insertion order and has unique keys, so an object is an association
      list read with first-match lookup.
    - A Python [str] is a [string], one [ascii] per character.
    - An operation that can raise returns [option]: [None] is "an exception
      was raised", whatever its class.
    - The reference map, a [dict] used for membership and lookup only, is a
      [gmap string string]. *)

From Stdlib Require Import ZArith String Ascii Lia.
From stdpp Require Import base option list gmap strings sorting.

Local Open Scope Z_scope.

(** ** JSON documents *)

#[local] Unset Elimination Schemes.

Inductive json : Type :=
  | JNull
  | JBool (b : bool)
  | JNum (n : Z)
  | JStr (s : string)
  | JArr (items : list json)
  | JObj (fields : list (string * json)).

#[local] Set Elimination Schemes.

(** A number is inspected by the loader only for being zero or not, so the
    payload of [JNum] stands for integers and floats alike. *)

(** Size of a document, the measure behind the structural induction
    principle. *)
Fixpoint json_size (v : json) : nat :=
  match v with
  | JArr items => S (foldr (fun x n => json_size x + n)%nat O items)
  | JObj fields => S (foldr (fun kv n => json_size (snd kv) + n)%nat O fields)
  | _ => 1%nat
  end.

(** ** Python strings *)

(** [s.startswith(p)] *)
Definition startswith (s p : string) : bool := String.prefix p s.

(** [needle in s] *)
Fixpoint str_contains (needle s : string) : bool :=
  String.prefix needle s ||
  match s with
  | EmptyString => false
  | String _ s' => str_contains needle s'
  end.

(** [s.replace(old, new)] for a non-empty [old] (the only call sites replace
    the literal ['urn:uuid:']): occurrences are replaced left to right and do
    not overlap.  [skip] counts the characters of a matched occurrence that
    are still to be dropped. *)
Fixpoint replace_from (old new : string) (skip : nat) (s : string) : string :=
  match s with
  | EmptyString => EmptyString
  | String c s' =>
      match skip with
      | S k => replace_from old new k s'
      | O =>
          if String.prefix old s
          then new +:+ replace_from old new (Nat.pred (String.length old)) s'
          else String c (replace_from old new O s')
      end
  end.

Definition str_replace (old new s : string) : string := replace_from old new O s.

(** [s.split(sep)] for a one-character separator: never empty. *)
Fixpoint str_split (sep : ascii) (s : string) : list string :=
  match s with
  | EmptyString => [EmptyString]
  | String c s' =>
      if Ascii.eqb c sep then EmptyString :: str_split sep s'
      else match str_split sep s' with
           | h :: t => String c h :: t
           | [] => [String c EmptyString]
           end
  end.

(** [s.split(sep, 1)]: split at the first separator only. *)
Fixpoint str_split1 (sep : ascii) (s : string) : list string :=
  match s with
  | EmptyString => [EmptyString]
  | String c s' =>
      if Ascii.eqb c sep then [EmptyString; s']
      else match str_split1 sep s' with
           | h :: t => String c h :: t
           | [] => [String c EmptyString]
           end
  end.

(** [l[-1]] on a list of strings known to be non-empty. *)
Definition last_segment (l : list string) : string := List.last l EmptyString.

(** [s[-n:]]: the last [n] characters, the whole string when it is shorter. *)
Definition str_last (n : nat) (s : string) : string :=
  substring (String.length s - n) n s.

(** ** Python operations on JSON values *)

(** First-match lookup in the field list of an object. *)
Fixpoint assoc (k : string) (fields : list (string * json)) : option json :=
  match fields with
  | [] => None
  | (k', v) :: rest => if String.eqb k k' then Some v else assoc k rest
  end.

(** [obj.get(k, dflt)]: only a [dict] has a [get] method. *)
Definition py_get (obj : json) (k : string) (dflt : json) : option json :=
  match obj with
  | JObj fields => Some (default dflt (assoc k fields))
  | _ => None
  end.

(** [obj[k]] for a string key: a missing key raises. *)
Definition py_getitem (obj : json) (k : string) : option json :=
  match obj with
  | JObj fields => assoc k fields
  | _ => None
  end.

(** [d[k] = v] on a [dict]: an existing key keeps its position. *)
Fixpoint set_field (k : string) (v : json) (fields : list (string * json))
  : list (string * json) :=
  match fields with
  | [] => [(k, v)]
  | (k', v') :: rest =>
      if String.eqb k k' then (k', v) :: rest else (k', v') :: set_field k v rest
  end.

Definition py_setitem (obj : json) (k : string) (v : json) : option json :=
  match obj with
  | JObj fields => Some (JObj (set_field k v fields))
  | JArr _ => None
  | _ => None
  end.

(** One-character strings of a string, what iterating a [str] yields. *)
Fixpoint chars (s : string) : list json :=
  match s with
  | EmptyString => []
  | String c s' => JStr (String c EmptyString) :: chars s'
  end.

(** [for x in v]: a list yields its items, a dict its keys, a string its
    characters; nothing else is iterable. *)
Definition py_iter (v : json) : option (list json) :=
  match v with
  | JArr items => Some items
  | JObj fields => Some (map (fun kv => JStr (fst kv)) fields)
  | JStr s => Some (chars s)
  | _ => None
  end.

(** [len(v)] *)
Definition py_len (v : json) : option Z :=
  match v with
  | JArr items => Some (Z.of_nat (length items))
  | JObj fields => Some (Z.of_nat (length fields))
  | JStr s => Some (Z.of_nat (String.length s))
  | _ => None
  end.

(** Truth value of a JSON value in a condition. *)
Definition py_truthy (v : json) : bool :=
  match v with
  | JNull => false
  | JBool b => b
  | JNum n => negb (n =? 0)
  | JStr s => negb (String.eqb s EmptyString)
  | JArr items => match items with [] => false | _ => true end
  | JObj fields => match fields with [] => false | _ => true end
  end.

(** [v == s] for a string literal [s]. *)
Definition eq_str (v : json) (s : string) : bool :=
  match v with
  | JStr s' => String.eqb s' s
  | _ => false
  end.

(** ** Reference scanner and rewriter *)

(** [is_conditional_reference]: a string that contains a query marker. *)
Definition is_conditional_reference (ref : json) : bool :=
  match ref with
  | JStr s => str_contains "?" s
  | _ => false
  end.

(** [transform_urn_uuid_reference] *)
Definition transform_urn_uuid_reference (ref : json) : json :=
  match ref with
  | JStr s => if str_contains "urn:uuid:" s then JStr (str_replace "urn:uuid:" "" s) else ref
  | _ => ref
  end.

(** [transform_conditional_to_direct]: the value of a field named
    [reference] that is a conditional reference is looked up in the map and
    kept when the map does not have it; every other value is rewritten
    recursively. *)
Fixpoint transform_conditional_to_direct (obj : json) (ref_map : gmap string string)
  : json :=
  match obj with
  | JObj fields =>
      JObj (map (fun kv =>
                   match kv with
                   | (key, value) =>
                       if String.eqb key "reference" && is_conditional_reference value
                       then match value with
                            | JStr s => (key, JStr (default s (ref_map !! s)))
                            | _ => (key, value)
                            end
                       else (key, transform_conditional_to_direct value ref_map)
                   end) fields)
  | JArr items => JArr (map (fun item => transform_conditional_to_direct item ref_map) items)
  | _ => obj
  end.

(** [transform_references_in_resource] *)
Fixpoint transform_references_in_resource (obj : json) : json :=
  match obj with
  | JObj fields =>
      JObj (map (fun kv =>
                   match kv with
                   | (key, value) =>
                       match String.eqb key "reference", value with
                       | true, JStr _ => (key, transform_urn_uuid_reference value)
                       | _, _ => (key, transform_references_in_resource value)
                       end
                   end) fields)
  | JArr items => JArr (map transform_references_in_resource items)
  | _ => obj
  end.

(** [has_any_conditional_reference] *)
Fixpoint has_any_conditional_reference (resource : json) : bool :=
  match resource with
  | JObj fields =>
      existsb (fun kv =>
                 match kv with
                 | (key, value) =>
                     (String.eqb key "reference" && is_conditional_reference value)
                     || has_any_conditional_reference value
                 end) fields
  | JArr items => existsb has_any_conditional_reference items
  | _ => false
  end.

(** ** Sorting, filtering, ranges and slices *)

(** Insertion into a list sorted by key, before the first element whose key
    is not smaller: with [sort_keyed] this is a stable sort, as Python's
    [sorted] is. *)
Fixpoint insert_keyed {A : Type} (k : Z) (x : A) (l : list (Z * A)) : list (Z * A) :=
  match l with
  | [] => [(k, x)]
  | (k', y) :: rest =>
      if k <=? k' then (k, x) :: l else (k', y) :: insert_keyed k x rest
  end.

Fixpoint sort_keyed {A : Type} (l : list (Z * A)) : list (Z * A) :=
  match l with
  | [] => []
  | (k, x) :: rest => insert_keyed k x (sort_keyed rest)
  end.

(** The order of two keyed elements. *)
Definition key_le {A : Type} (a b : Z * A) : Prop := a.1 <= b.1.

(** [x] may stand before [y] in a list sorted by [key]. *)
Definition precedes (key : json -> option Z) (x y : json) : Prop :=
  exists kx ky, key x = Some kx /\ key y = Some ky /\ kx <= ky.

(** [sorted(l, key=key)]: the key of every element is computed first, and an
    exception in a key aborts the sort. *)
Definition py_sorted (key : json -> option Z) (l : list json) : option (list json) :=
  keyed ← mapM (fun e => k ← key e; Some (k, e)) l;
  Some (map snd (sort_keyed keyed)).

(** [[e for e in l if p(e)]] for a condition that can raise. *)
Fixpoint py_filter (p : json -> option bool) (l : list json) : option (list json) :=
  match l with
  | [] => Some []
  | e :: rest =>
      b ← p e;
      rest' ← py_filter p rest;
      Some (if b : bool then e :: rest' else rest')
  end.

(** [range(start, stop, step)]: a zero step raises [ValueError]. *)
Definition py_range (start stop step : Z) : option (list Z) :=
  if step =? 0 then None
  else
    let count :=
      if 0 <? step then (stop - start + step - 1) / step
      else (start - stop - step - 1) / (- step) in
    Some (map (fun i => start + Z.of_nat i * step) (seq 0 (Z.to_nat count))).

(** An index of a slice, brought into [0 .. len]. *)
Definition slice_index (len i : Z) : Z :=
  if i <? 0 then Z.max 0 (i + len) else Z.min i len.

(** [l[lo:hi]] *)
Definition py_slice {A : Type} (l : list A) (lo hi : Z) : list A :=
  let len := Z.of_nat (length l) in
  let a := slice_index len lo in
  let b := slice_index len hi in
  take (Z.to_nat (b - a)) (drop (Z.to_nat a) l).

(** ** Entry orderer *)

(** The precedence table shared by the orderer and the splitter. *)
Definition type_order : list (string * Z) :=
  [("Organization", 0); ("Practitioner", 1); ("PractitionerRole", 2);
   ("Location", 3); ("Patient", 4)].

Fixpoint table_get (k : string) (table : list (string * Z)) : option Z :=
  match table with
  | [] => None
  | (k', n) :: rest => if String.eqb k k' then Some n else table_get k rest
  end.

(** [type_order.get(resource_type, 99)]: a list or a dict is not hashable and
    cannot be looked up; a value that is not a string is no key of the
    table. *)
Definition type_order_get (resource_type : json) : option Z :=
  match resource_type with
  | JStr s => Some (default 99 (table_get s type_order))
  | JArr _ => None
  | JObj _ => None
  | _ => Some 99
  end.

(** [get_order], the sort key of both [reorder_bundle_entries] and
    [split_bundle_entries]. *)
Definition get_order (entry : json) : option Z :=
  resource ← py_get entry "resource" (JObj []);
  resource_type ← py_get resource "resourceType" (JStr "");
  type_order_get resource_type.

(** A value that can be a key of a [dict]. *)
Definition hashable (v : json) : bool :=
  match v with
  | JArr _ => false
  | JObj _ => false
  | _ => true
  end.

(** The entries [get_order] is defined on: a dict whose [resource], when it
    has one, is a dict whose [resourceType], when it has one, is hashable. *)
Definition sortable_entry (entry : json) : bool :=
  match entry with
  | JObj fields =>
      match assoc "resource" fields with
      | None => true
      | Some (JObj resource_fields) =>
          match assoc "resourceType" resource_fields with
          | None => true
          | Some resource_type => hashable resource_type
          end
      | Some _ => false
      end
  | _ => false
  end.

(** The kind of the entity of an entry: its [resourceType] when that is a
    string, the empty string when the entry names no kind. *)
Definition entry_kind (entry : json) : string :=
  match entry with
  | JObj fields =>
      match assoc "resource" fields with
      | Some (JObj resource_fields) =>
          match assoc "resourceType" resource_fields with
          | Some (JStr kind) => kind
          | _ => ""
          end
      | _ => ""
      end
  | _ => ""
  end.

(** The precedence table in the words of the specification: the listed
    kinds in their order, every other kind after all of them. *)
Definition listed_kinds : list string :=
  ["Organization"; "Practitioner"; "PractitionerRole"; "Location"; "Patient"].

Fixpoint position (kind : string) (kinds : list string) : option nat :=
  match kinds with
  | [] => None
  | k :: rest => if String.eqb kind k then Some O else S <$> position kind rest
  end.

Definition kind_precedence (kind : string) : Z :=
  match position kind listed_kinds with
  | Some i => Z.of_nat i
  | None => 99
  end.

(** [reorder_bundle_entries] *)
Definition reorder_bundle_entries (bundle : json) : option json :=
  entries ← py_get bundle "entry" (JArr []);
  items ← py_iter entries;
  sorted_entries ← py_sorted get_order items;
  py_setitem bundle "entry" (JArr sorted_entries).

(** ** Transactional splitter *)

(** [split_bundle_entries] *)
Definition split_bundle_entries (bundle : json) (max_entries : Z) : option (list json) :=
  entries ← py_get bundle "entry" (JArr []);
  n ← py_len entries;
  if n <=? max_entries then Some [bundle]
  else
    items ← py_iter entries;
    sorted_entries ← py_sorted get_order items;
    foundational ← py_filter (fun e => o ← get_order e; Some (o <? 99)) sorted_entries;
    other_entries ← py_filter (fun e => o ← get_order e; Some (99 <=? o)) sorted_entries;
    let step := max_entries - Z.of_nat (length foundational) in
    starts ← py_range 0 (Z.max 1 (Z.of_nat (length other_entries))) step;
    bundle_type ← py_get bundle "type" (JStr "transaction");
    Some (map (fun i =>
                 let chunk := py_slice other_entries i (i + step) in
                 JObj [("resourceType", JStr "Bundle");
                       ("type", bundle_type);
                       ("entry", JArr (if i =? 0 then foundational ++ chunk else chunk))])
              starts).

(** Entries of a bundle, as [bundle.get('entry', [])] iterates them. *)
Definition bundle_entries (bundle : json) : option (list json) :=
  entries ← py_get bundle "entry" (JArr []);
  py_iter entries.

(** A bundle entry holding a resource of the given kind and nothing else. *)
Definition entry_of_kind (kind : string) : json :=
  JObj [("resource", JObj [("resourceType", JStr kind)])].

Definition bundle_of (entries : list json) : json :=
  JObj [("resourceType", JStr "Bundle"); ("entry", JArr entries)].

(** ** What the loader takes from outside

    Library functions and configuration the sources call but do not define.
    - [md5_hexdigest s] is [hashlib.md5(s.encode()).hexdigest()].
    - [parse_qs q] is [urllib.parse.parse_qs(q)]: every name it returns has a
      non-empty list of values, kept here as first value and rest.
    - [str_lower] is [str.lower].
    - [py_repr v] is the text an f-string gives a value that is not a string.
    - [set_iter] is the order in which a [for] loop visits a set of strings:
      some order of its elements, each once.
    - [strptime_ymd s] is [datetime.strptime(s, '%Y-%m-%d').date()] as
      (year, month, day), [None] when it raises; [today] is [date.today()].
    - [qualifying_icd10] and [qualifying_snomed] are the code lists that
      [has_qualifying_condition] reads from the device registry, a
      configuration file that is not part of the sources.
    - [DEVICE_COUNT] is the environment setting of that name. *)
Class Externals : Type := {
  md5_hexdigest : string -> string;
  parse_qs : string -> gmap string (string * list string);
  str_lower : string -> string;
  py_repr : json -> string;
  set_iter : gset string -> list string;
  set_iter_elements : forall X, set_iter X ≡ₚ elements X;
  strptime_ymd : string -> option (Z * Z * Z);
  today : Z * Z * Z;
  qualifying_icd10 : list string;
  qualifying_snomed : list string;
  DEVICE_COUNT : Z
}.

(** ASCII lower-casing, the instance of [str_lower] used to run the model. *)
Definition ascii_lower (c : ascii) : ascii :=
  let n := nat_of_ascii c in
  if (65 <=? n)%nat && (n <=? 90)%nat then ascii_of_nat (n + 32) else c.

Fixpoint lower_ascii (s : string) : string :=
  match s with
  | EmptyString => EmptyString
  | String c s' => String (ascii_lower c) (lower_ascii s')
  end.

(** A stand-in digest for running the model: the input padded with zeros to
    32 characters. *)
Definition pad32 (s : string) : string :=
  substring 0 32 (s +:+ "00000000000000000000000000000000").

(** A query string of the one form [name=value]. *)
Definition parse_single (q : string) : gmap string (string * list string) :=
  match str_split1 "=" q with
  | [name; value] => {[ name := (value, []) ]}
  | _ => ∅
  end.

(** A date [YYYY-MM-DD] of exactly ten characters with decimal digits. *)
Definition digit (c : ascii) : option Z :=
  let n := nat_of_ascii c in
  if (48 <=? n)%nat && (n <=? 57)%nat then Some (Z.of_nat n - 48) else None.

Fixpoint digits_from (acc : Z) (s : string) : option Z :=
  match s with
  | EmptyString => Some acc
  | String c s' => d ← digit c; digits_from (10 * acc + d) s'
  end.

Definition parse_iso_date (s : string) : option (Z * Z * Z) :=
  if negb (Nat.eqb (String.length s) 10) then None
  else if negb (String.eqb (substring 4 1 s) "-" && String.eqb (substring 7 1 s) "-") then None
  else
    y ← digits_from 0 (substring 0 4 s);
    m ← digits_from 0 (substring 5 2 s);
    d ← digits_from 0 (substring 8 2 s);
    if (1 <=? m) && (m <=? 12) && (1 <=? d) && (d <=? 31) then Some (y, m, d) else None.

Definition sample_externals : Externals := {|
  md5_hexdigest := pad32;
  parse_qs := parse_single;
  str_lower := lower_ascii;
  py_repr := fun _ => "<value>";
  set_iter := elements;
  set_iter_elements := fun X => reflexivity (elements X);
  strptime_ymd := parse_iso_date;
  today := (2025, 6, 15);
  qualifying_icd10 := ["J44"; "I50"];
  qualifying_snomed := ["13645005"];
  DEVICE_COUNT := 100
|}.

(** [f"{v}"] *)
Definition py_format `{Externals} (v : json) : string :=
  match v with
  | JStr s => s
  | _ => py_repr v
  end.

(** ** Reference scanner *)

(** [extract_conditional_refs_from_resource]: the set [refs] is returned
    instead of updated in place. *)
Fixpoint extract_conditional_refs_from_resource (obj : json) (refs : gset string)
  : gset string :=
  match obj with
  | JObj fields =>
      foldl (fun acc kv =>
               match kv with
               | (key, value) =>
                   if String.eqb key "reference" && is_conditional_reference value
                   then match value with
                        | JStr s => {[ s ]} ∪ acc
                        | _ => acc
                        end
                   else extract_conditional_refs_from_resource value acc
               end) refs fields
  | JArr items =>
      foldl (fun acc item => extract_conditional_refs_from_resource item acc) refs items
  | _ => refs
  end.

(** ** Stub synthesizer *)

Section Synthesizer.
Context `{Externals}.

(** The 8-4-4-4-12 grouping of a hexadecimal digest. *)
Definition uuid_format (uuid : string) : string :=
  substring 0 8 uuid +:+ "-" +:+ substring 8 4 uuid +:+ "-" +:+
  substring 12 4 uuid +:+ "-" +:+ substring 16 4 uuid +:+ "-" +:+
  substring 20 12 uuid.

(** [create_practitioner_from_npi] *)
Definition create_practitioner_from_npi (npi : string) : json :=
  let uuid := md5_hexdigest ("practitioner-npi-" +:+ npi) in
  let uuid_formatted := uuid_format uuid in
  JObj [("resourceType", JStr "Practitioner");
        ("id", JStr uuid_formatted);
        ("identifier",
          JArr [JObj [("system", JStr "http://hl7.org/fhir/sid/us-npi");
                      ("value", JStr npi)]]);
        ("active", JBool true);
        ("name",
          JArr [JObj [("use", JStr "official");
                      ("family", JStr ("Provider-" +:+ str_last 4 npi));
                      ("given", JArr [JStr "Healthcare"])]])].

(** The identifier named by a conditional reference, as both
    [create_location_from_ref] and [create_organization_from_ref] parse
    it: [None] where the source returns [None].  The last branch of each
    match is the unpacking of a split that has the wrong number of parts;
    the tests before it exclude it. *)
Definition parse_identifier_ref (ref : string) : option (string * string) :=
  if negb (str_contains "?" ref) then None
  else
    match str_split1 "?" ref with
    | [_; query] =>
        let identifier_value :=
          match parse_qs query !! "identifier" with
          | Some (first, _) => first
          | None => ""
          end in
        if String.eqb identifier_value "" || negb (str_contains "|" identifier_value)
        then None
        else
          match str_split1 "|" identifier_value with
          | [system; value] => Some (system, value)
          | _ => None
          end
    | _ => None
    end.

(** [create_location_from_ref] *)
Definition create_location_from_ref (location_ref : string) : option json :=
  '(system, value) ← parse_identifier_ref location_ref;
  let uuid := md5_hexdigest ("location-" +:+ system +:+ "-" +:+ value) in
  let uuid_formatted := uuid_format uuid in
  Some (JObj [("resourceType", JStr "Location");
              ("id", JStr uuid_formatted);
              ("identifier",
                JArr [JObj [("system", JStr system); ("value", JStr value)]]);
              ("status", JStr "active");
              ("name",
                JStr ("Location " +:+
                      (if (6 <? String.length value)%nat then str_last 6 value else value)))]).

(** [create_organization_from_ref] *)
Definition create_organization_from_ref (org_ref : string) : option json :=
  '(system, value) ← parse_identifier_ref org_ref;
  let uuid := md5_hexdigest ("organization-" +:+ system +:+ "-" +:+ value) in
  let uuid_formatted := uuid_format uuid in
  Some (JObj [("resourceType", JStr "Organization");
              ("id", JStr uuid_formatted);
              ("identifier",
                JArr [JObj [("system", JStr system); ("value", JStr value)]]);
              ("active", JBool true);
              ("name",
                JStr ("Organization " +:+
                      (if (8 <? String.length value)%nat then str_last 8 value else value)))]).

(** The resources the synthesizer can produce. *)
Inductive synthesized : json -> Prop :=
  | synthesized_practitioner npi :
      synthesized (create_practitioner_from_npi npi)
  | synthesized_location ref stub :
      create_location_from_ref ref = Some stub -> synthesized stub
  | synthesized_organization ref stub :
      create_organization_from_ref ref = Some stub -> synthesized stub.

(** The entry that carries a synthesized resource,
    [{'fullUrl': f"urn:uuid:{resource['id']}", 'resource': resource}]. *)
Definition stub_entry (resource : json) : option json :=
  id ← py_getitem resource "id";
  Some (JObj [("fullUrl", JStr ("urn:uuid:" +:+ py_format id)); ("resource", resource)]).

(** The three sets the references are grouped into. *)
Record ref_groups : Type := {
  practitioner_npis : gset string;
  location_refs : gset string;
  organization_refs : gset string
}.

Definition group_ref (g : ref_groups) (ref : string) : ref_groups :=
  if startswith ref "Practitioner?identifier=http://hl7.org/fhir/sid/us-npi|"
  then {| practitioner_npis := {[ last_segment (str_split "|" ref) ]} ∪ practitioner_npis g;
          location_refs := location_refs g;
          organization_refs := organization_refs g |}
  else if startswith ref "Location?"
  then {| practitioner_npis := practitioner_npis g;
          location_refs := {[ ref ]} ∪ location_refs g;
          organization_refs := organization_refs g |}
  else if startswith ref "Organization?"
  then {| practitioner_npis := practitioner_npis g;
          location_refs := location_refs g;
          organization_refs := {[ ref ]} ∪ organization_refs g |}
  else g.

(** The stubs, organizations first, then practitioners, then locations.
    A reference that names no identifier gives no stub; a stub always has
    an id, so [stub_entry] never fails here. *)
Definition new_stub_entries (conditional_refs : gset string) : list json :=
  let g := foldl group_ref
             {| practitioner_npis := ∅; location_refs := ∅; organization_refs := ∅ |}
             (set_iter conditional_refs) in
  omap (fun org_ref => create_organization_from_ref org_ref ≫= stub_entry)
       (set_iter (organization_refs g))
  ++ omap (fun npi => stub_entry (create_practitioner_from_npi npi))
          (set_iter (practitioner_npis g))
  ++ omap (fun loc_ref => create_location_from_ref loc_ref ≫= stub_entry)
          (set_iter (location_refs g)).

(** The conditional references of all entries of a bundle. *)
Fixpoint collect_conditional_refs (entries : list json) (refs : gset string)
  : option (gset string) :=
  match entries with
  | [] => Some refs
  | entry :: rest =>
      resource ← py_get entry "resource" (JObj []);
      collect_conditional_refs rest (extract_conditional_refs_from_resource resource refs)
  end.

(** [inject_referenced_resources]: [new_entries + bundle.get('entry', [])]
    needs a list on the right. *)
Definition inject_referenced_resources (bundle : json) : option json :=
  entries ← py_get bundle "entry" (JArr []);
  items ← py_iter entries;
  conditional_refs ← collect_conditional_refs items ∅;
  let new_entries := new_stub_entries conditional_refs in
  match new_entries with
  | [] => Some bundle
  | _ =>
      match entries with
      | JArr old => py_setitem bundle "entry" (JArr (new_entries ++ old))
      | _ => None
      end
  end.
End Synthesizer.

(** ** Reference map builder *)

Section Resolver.
Context `{Externals}.

(** The id an entry is stored under, computed the same way by
    [build_conditional_reference_map] and by the processor: from
    [fullUrl] when it starts with ['urn:uuid:'] or contains a slash, from
    the resource otherwise.  [fullUrl] has to be a string. *)
Definition entry_final_id (full_url resource : json) : option json :=
  match full_url with
  | JStr url =>
      if startswith url "urn:uuid:" then Some (JStr (str_replace "urn:uuid:" "" url))
      else if str_contains "/" url then Some (JStr (last_segment (str_split "/" url)))
      else py_get resource "id" (JStr "")
  | _ => None
  end.

(** The body of the loop over the identifiers of one resource. *)
Definition register_identifier (resource_type resource_uuid : json)
    (ref_map : gmap string string) (identifier : json) : option (gmap string string) :=
  system ← py_get identifier "system" (JStr "");
  value ← py_get identifier "value" (JStr "");
  if py_truthy system && py_truthy value
  then
    let conditional_ref :=
      py_format resource_type +:+ "?identifier=" +:+ py_format system +:+ "|" +:+
      py_format value in
    let direct_ref := py_format resource_type +:+ "/" +:+ py_format resource_uuid in
    Some (<[conditional_ref := direct_ref]> ref_map)
  else Some ref_map.

(** A loop whose body updates an accumulator and can raise. *)
Fixpoint for_each {A B : Type} (body : A -> B -> option A) (acc : A) (l : list B)
  : option A :=
  match l with
  | [] => Some acc
  | x :: rest => acc' ← body acc x; for_each body acc' rest
  end.

(** The body of the loop over the entries. *)
Definition register_entry (ref_map : gmap string string) (entry : json)
  : option (gmap string string) :=
  resource ← py_get entry "resource" (JObj []);
  resource_type ← py_get resource "resourceType" (JStr "");
  full_url ← py_get entry "fullUrl" (JStr "");
  resource_uuid ← entry_final_id full_url resource;
  if negb (py_truthy resource_uuid) then Some ref_map
  else
    identifiers ← py_get resource "identifier" (JArr []);
    ids ← py_iter identifiers;
    for_each (register_identifier resource_type resource_uuid) ref_map ids.

(** [build_conditional_reference_map] *)
Definition build_conditional_reference_map (bundle : json) : option (gmap string string) :=
  entries ← py_get bundle "entry" (JArr []);
  items ← py_iter entries;
  for_each register_entry ∅ items.

(** ** Bundle processor: rewriting the entries *)

(** The body of the loop that turns the entries into [PUT] requests
    (lines 860 to 887 of the loader).  The loop updates each entry in
    place; here the updated entry is returned. *)
Definition rewrite_entry (ref_map : gmap string string) (entry : json) : option json :=
  resource ← py_get entry "resource" (JObj []);
  resource_type ← py_get resource "resourceType" (JStr "");
  full_url ← py_get entry "fullUrl" (JStr "");
  resource_id ← entry_final_id full_url resource;
  resource ← (if py_truthy resource_id then py_setitem resource "id" resource_id
              else Some resource);
  let transformed_resource :=
    transform_conditional_to_direct (transform_references_in_resource resource) ref_map in
  entry ← py_setitem entry "resource" transformed_resource;
  py_setitem entry "request"
    (JObj [("method", JStr "PUT");
           ("url", if py_truthy resource_id
                   then JStr (py_format resource_type +:+ "/" +:+ py_format resource_id)
                   else resource_type)]).

(** The loop itself.  The entries are the elements of the list stored in
    the bundle, so updating them in place updates that list; when the
    bundle has no such list the loop body never completes a turn and the
    bundle stays as it is. *)
Definition rewrite_entries (bundle : json) (ref_map : gmap string string) : option json :=
  entries ← py_get bundle "entry" (JArr []);
  items ← py_iter entries;
  items' ← mapM (rewrite_entry ref_map) items;
  match py_getitem bundle "entry" with
  | Some (JArr _) => py_setitem bundle "entry" (JArr items')
  | _ => Some bundle
  end.

(** Lines 849 to 890: from the bundle as read to the bundle as submitted
    and its sub-bundles. *)
Definition prepare_bundle (bundle : json) : option (json * list json) :=
  bundle ← inject_referenced_resources bundle;
  bundle ← reorder_bundle_entries bundle;
  ref_map ← build_conditional_reference_map bundle;
  bundle ← py_setitem bundle "type" (JStr "transaction");
  bundle ← rewrite_entries bundle ref_map;
  sub_bundles ← split_bundle_entries bundle 400;
  Some (bundle, sub_bundles).
End Resolver.

(** ** Eligibility rules *)

(** Children's Healthcare of Atlanta organization ids. *)
Definition CHOA_ORG_IDS : list string :=
  ["childrens-healthcare-atlanta"; "choa-egleston"; "choa-scottish-rite";
   "choa-hughes-spalding"].

Section Eligibility.
Context `{Externals}.

(** [calculate_age]: any exception, a value that is not a string
    included, gives age 0. *)
Definition calculate_age (birth_date_str : json) : Z :=
  match birth_date_str with
  | JStr s =>
      match strptime_ymd s with
      | Some (year, month, day) =>
          let '(today_year, today_month, today_day) := today in
          today_year - year -
          (if (today_month <? month) || ((today_month =? month) && (today_day <? day))
           then 1 else 0)
      | None => 0
      end
  | _ => 0
  end.

(** [is_pediatric] *)
Definition is_pediatric (patient : json) : option bool :=
  birth_date ← py_get patient "birthDate" (JStr "");
  Some (if py_truthy birth_date then calculate_age birth_date <? 21 else false).

(** The first entry whose resource is a [Patient], with that resource. *)
Fixpoint find_patient (entries : list json) : option (option (json * json)) :=
  match entries with
  | [] => Some None
  | entry :: rest =>
      resource ← py_get entry "resource" (JObj []);
      resource_type ← py_get resource "resourceType" JNull;
      if eq_str resource_type "Patient" then Some (Some (entry, resource))
      else find_patient rest
  end.

(** [get_patient_from_bundle]: the inner [None] is Python's. *)
Definition get_patient_from_bundle (bundle : json) : option (option json) :=
  items ← bundle_entries bundle;
  found ← find_patient items;
  Some (match found with Some (_, resource) => Some resource | None => None end).

(** The value [get_patient_managing_org] returns for a truthy [ref]:
    [ref.split('/')[-1] if '/' in ref else ref]. *)
Definition org_of_reference (ref : json) : option json :=
  match ref with
  | JStr s => Some (if str_contains "/" s then JStr (last_segment (str_split "/" s)) else ref)
  | JArr items => if existsb (fun x => eq_str x "/") items then None else Some ref
  | JObj fields => if existsb (fun kv => String.eqb (fst kv) "/") fields then None else Some ref
  | _ => None
  end.

Fixpoint find_managing_org (entries : list json) : option (option json) :=
  match entries with
  | [] => Some None
  | entry :: rest =>
      resource ← py_get entry "resource" (JObj []);
      resource_type ← py_get resource "resourceType" JNull;
      if eq_str resource_type "Encounter" then
        service_provider ← py_get resource "serviceProvider" (JObj []);
        ref ← py_get service_provider "reference" (JStr "");
        if py_truthy ref then org ← org_of_reference ref; Some (Some org)
        else find_managing_org rest
      else find_managing_org rest
  end.

(** [get_patient_managing_org] *)
Definition get_patient_managing_org (bundle : json) : option (option json) :=
  items ← bundle_entries bundle;
  find_managing_org items.

(** [is_choa_patient] *)
Definition is_choa_patient (bundle : json) : option bool :=
  org_id ← get_patient_managing_org bundle;
  match org_id with
  | Some org =>
      if py_truthy org then
        match org with
        | JStr s => Some (existsb (fun choa_id => str_contains choa_id (str_lower s)) CHOA_ORG_IDS)
        | _ => None
        end
      else Some false
  | None => Some false
  end.

(** [for qc in qualifying_icd10: if code_value.startswith(qc): return True] *)
Definition icd10_prefix_match (code_value : json) : option bool :=
  match qualifying_icd10 with
  | [] => Some false
  | _ =>
      match code_value with
      | JStr c => Some (existsb (fun qc => startswith c qc) qualifying_icd10)
      | _ => None
      end
  end.

(** The body of the loop over the codings of a condition: [Some true] is
    [return True], [Some false] goes on to the next coding. *)
Definition coding_qualifies (coding : json) : option bool :=
  code_value ← py_get coding "code" (JStr "");
  system ← py_get coding "system" (JStr "");
  match system with
  | JStr sys =>
      let snomed :=
        str_contains "snomed" (str_lower sys)
        && existsb (fun q => eq_str code_value q) qualifying_snomed in
      if snomed then Some true
      else
        by_icd ← (if str_contains "icd" (str_lower sys) then icd10_prefix_match code_value
                  else Some false);
        if by_icd : bool then Some true
        else if String.eqb sys "" then icd10_prefix_match code_value
        else Some false
  | _ => None
  end.

(** A loop that returns [True] from its first successful turn. *)
Fixpoint any_of {A : Type} (body : A -> option bool) (l : list A) : option bool :=
  match l with
  | [] => Some false
  | x :: rest => b ← body x; if b : bool then Some true else any_of body rest
  end.

(** The body of the loop over the entries of [has_qualifying_condition],
    from the resource of the entry on. *)
Definition resource_qualifies (resource : json) : option bool :=
  resource_type ← py_get resource "resourceType" JNull;
  if eq_str resource_type "Condition" then
    code ← py_get resource "code" (JObj []);
    codings ← py_get code "coding" (JArr []);
    items ← py_iter codings;
    any_of coding_qualifies items
  else Some false.

Definition entry_qualifies (entry : json) : option bool :=
  resource ← py_get entry "resource" (JObj []);
  resource_qualifies resource.

(** [has_qualifying_condition], with the two code lists of the registry
    taken from [Externals]. *)
Definition has_qualifying_condition (bundle : json) : option bool :=
  items ← bundle_entries bundle;
  any_of entry_qualifies items.

(** The decision taken before anything is injected. *)
Inductive gate : Type :=
  | NoPatient
  | ChoaAdult
  | Proceed (patient_entry patient : json).

(** Lines 838 to 845.  [is_pediatric] is evaluated only for a bundle of
    a CHOA patient. *)
Definition classify (bundle : json) : option gate :=
  items ← bundle_entries bundle;
  found ← find_patient items;
  match found with
  | None => Some NoPatient
  | Some (patient_entry, patient) =>
      choa ← is_choa_patient bundle;
      if choa : bool then
        pediatric ← is_pediatric patient;
        Some (if pediatric : bool then Proceed patient_entry patient else ChoaAdult)
      else Some (Proceed patient_entry patient)
  end.
End Eligibility.

(** ** Bundle processor *)

(** White space that [str.strip] removes, among the characters of the
    model. *)
Definition is_space (c : ascii) : bool :=
  let n := nat_of_ascii c in
  ((9 <=? n)%nat && (n <=? 13)%nat) || ((28 <=? n)%nat && (n <=? 32)%nat)
  || Nat.eqb n 133 || Nat.eqb n 160.

Fixpoint str_lstrip (s : string) : string :=
  match s with
  | EmptyString => EmptyString
  | String c s' => if is_space c then str_lstrip s' else s
  end.

Fixpoint str_rstrip (s : string) : string :=
  match s with
  | EmptyString => EmptyString
  | String c s' =>
      let r := str_rstrip s' in
      if is_space c && String.eqb r "" then EmptyString else String c r
  end.

(** [s.strip()] *)
Definition str_strip (s : string) : string := str_rstrip (str_lstrip s).

(** [sep.join(v)]: every item has to be a string. *)
Fixpoint join_strings (sep : string) (l : list json) : option string :=
  match l with
  | [] => Some EmptyString
  | [JStr s] => Some s
  | JStr s :: rest => r ← join_strings sep rest; Some (s +:+ sep +:+ r)
  | _ => None
  end.

Definition py_join (sep : string) (v : json) : option string :=
  items ← py_iter v;
  join_strings sep items.

(** [v[0]]: a dict of a JSON document has no key [0]. *)
Definition py_first (v : json) : option json :=
  match v with
  | JArr (x :: _) => Some x
  | JStr (String c _) => Some (JStr (String c EmptyString))
  | _ => None
  end.

(** The counters and the result list of [process_synthea_bundles];
    [errors_logged] counts the lines printed by its exception handler. *)
Record loader_state : Type := {
  qualifying_patients : list json;
  uploaded_count : Z;
  skipped_choa_adult : Z;
  processed_count : Z;
  bundle_splits : Z;
  errors_logged : Z
}.

Definition initial_state : loader_state :=
  {| qualifying_patients := []; uploaded_count := 0; skipped_choa_adult := 0;
     processed_count := 0; bundle_splits := 0; errors_logged := 0 |}.

(** What became of one bundle of the stream. *)
Inductive outcome : Type :=
  | NoPatientFound
  | SkippedChoaAdult
  | Failed
  | Uploaded (qualifying : bool).

Section Processor.
Context `{Externals}.

(** The remote store: [post_bundle w b] is the store after the request and
    whether the request succeeded ([false]: [client.post_bundle] raised). *)
Context {World : Type} (post_bundle : World -> json -> World * bool).

(** [for sub_bundle in sub_bundles: client.post_bundle(sub_bundle)] *)
Fixpoint post_all (w : World) (sub_bundles : list json) : World * bool :=
  match sub_bundles with
  | [] => (w, true)
  | sub_bundle :: rest =>
      let '(w', ok) := post_bundle w sub_bundle in
      if ok : bool then post_all w' rest else (w', false)
  end.

(** The patient dictionary as the rewriting loop leaves it: the loop
    stores the final id in the very object that [patient] refers to. *)
Definition patient_after_rewrite (patient_entry patient : json) : option json :=
  full_url ← py_get patient_entry "fullUrl" (JStr "");
  resource_id ← entry_final_id full_url patient;
  if py_truthy resource_id then py_setitem patient "id" resource_id else Some patient.

(** Lines 901 to 915: the record of a qualifying patient. *)
Definition qualifying_record (patient : json) : option json :=
  names ← py_get patient "name" (JArr []);
  patient_name ←
    (if py_truthy names then
       name ← py_first names;
       given_names ← py_get name "given" (JArr []);
       given ← py_join " " given_names;
       family ← py_get name "family" (JStr "");
       Some (str_strip (given +:+ " " +:+ py_format family))
     else Some EmptyString);
  patient_id ← py_get patient "id" (JStr "");
  birth_date ← py_get patient "birthDate" (JStr "");
  pediatric ← is_pediatric patient;
  Some (JObj [("id", patient_id); ("name", JStr patient_name);
              ("birthDate", birth_date); ("isPediatric", JBool pediatric)]).

Definition log_error (st : loader_state) : loader_state :=
  {| qualifying_patients := qualifying_patients st;
     uploaded_count := uploaded_count st;
     skipped_choa_adult := skipped_choa_adult st;
     processed_count := processed_count st;
     bundle_splits := bundle_splits st;
     errors_logged := errors_logged st + 1 |}.

(** The [try] block of [process_synthea_bundles] for one bundle, with its
    handler: what the counters, the result list and the store are
    afterwards, and what became of the bundle.  An exception keeps the
    updates made before it. *)
Definition process_bundle (st : loader_state) (w : World) (bundle : json)
  : loader_state * World * outcome :=
  match classify bundle with
  | None => (log_error st, w, Failed)
  | Some NoPatient => (st, w, NoPatientFound)
  | Some ChoaAdult =>
      ({| qualifying_patients := qualifying_patients st;
          uploaded_count := uploaded_count st;
          skipped_choa_adult := skipped_choa_adult st + 1;
          processed_count := processed_count st;
          bundle_splits := bundle_splits st;
          errors_logged := errors_logged st |}, w, SkippedChoaAdult)
  | Some (Proceed patient_entry patient) =>
      match prepare_bundle bundle with
      | None => (log_error st, w, Failed)
      | Some (bundle', sub_bundles) =>
          let splits :=
            if (1 <? length sub_bundles)%nat then bundle_splits st + 1
            else bundle_splits st in
          let '(w', ok) := post_all w sub_bundles in
          let st1 :=
            {| qualifying_patients := qualifying_patients st;
               uploaded_count := uploaded_count st;
               skipped_choa_adult := skipped_choa_adult st;
               processed_count := processed_count st;
               bundle_splits := splits;
               errors_logged := errors_logged st |} in
          if negb ok then (log_error st1, w', Failed)
          else
            let st2 :=
              {| qualifying_patients := qualifying_patients st;
                 uploaded_count := uploaded_count st + 1;
                 skipped_choa_adult := skipped_choa_adult st;
                 processed_count := processed_count st;
                 bundle_splits := splits;
                 errors_logged := errors_logged st |} in
            match has_qualifying_condition bundle' with
            | None => (log_error st2, w', Failed)
            | Some qualifying =>
                if qualifying
                   && (Z.of_nat (length (qualifying_patients st)) <? DEVICE_COUNT)
                then
                  match patient_after_rewrite patient_entry patient
                          ≫= qualifying_record with
                  | None => (log_error st2, w', Failed)
                  | Some record =>
                      ({| qualifying_patients := qualifying_patients st ++ [record];
                          uploaded_count := uploaded_count st + 1;
                          skipped_choa_adult := skipped_choa_adult st;
                          processed_count := processed_count st + 1;
                          bundle_splits := splits;
                          errors_logged := errors_logged st |}, w', Uploaded true)
                  end
                else
                  ({| qualifying_patients := qualifying_patients st;
                      uploaded_count := uploaded_count st + 1;
                      skipped_choa_adult := skipped_choa_adult st;
                      processed_count := processed_count st + 1;
                      bundle_splits := splits;
                      errors_logged := errors_logged st |}, w', Uploaded qualifying)
            end
      end
  end.

(** The loops over the batches of the stream and over the bundles of a
    batch; the outcomes are collected in stream order. *)
Fixpoint process_bundles (st : loader_state) (w : World) (bundles : list json)
  : loader_state * World * list outcome :=
  match bundles with
  | [] => (st, w, [])
  | bundle :: rest =>
      let '(st', w', o) := process_bundle st w bundle in
      let '(st'', w'', os) := process_bundles st' w' rest in
      (st'', w'', o :: os)
  end.

(** [process_synthea_bundles] over the batches the stream yields. *)
Definition process_synthea_bundles (w : World) (batches : list (list json))
  : loader_state * World * list outcome :=
  process_bundles initial_state w (concat batches).
End Processor.

(** ** Vocabulary of the rewriter's contract *)

(** The values of the reference fields of a document, in document order: a
    reference field is a field named [reference] that holds a string. *)
Fixpoint reference_fields (v : json) : list string :=
  match v with
  | JObj fields =>
      flat_map (fun kv =>
                  match kv with
                  | (key, value) =>
                      match String.eqb key "reference", value with
                      | true, JStr s => [s]
                      | _, _ => reference_fields value
                      end
                  end) fields
  | JArr items => flat_map reference_fields items
  | _ => []
  end.

(** A document with the text of every reference field blanked: what is left
    are the field names in their order and every value that is not the text
    of a reference field. *)
Fixpoint skeleton (v : json) : json :=
  match v with
  | JObj fields =>
      JObj (map (fun kv =>
                   match kv with
                   | (key, value) =>
                       match String.eqb key "reference", value with
                       | true, JStr _ => (key, JStr "")
                       | _, _ => (key, skeleton value)
                       end
                   end) fields)
  | JArr items => JArr (map skeleton items)
  | _ => v
  end.

(** How one reference is to be rewritten under a reference map: a
    conditional reference that is a key of the map becomes the reference
    mapped to it, any other reference stays as it is. *)
Definition rewritten_as (ref_map : gmap string string) (s s' : string) : Prop :=
  if str_contains "?" s
  then match ref_map !! s with
       | Some direct => s' = direct
       | None => s' = s
       end
  else s' = s.

(** A reference map in the sense of the data model: it maps to direct
    references, which carry no query marker. *)
Definition direct_valued (ref_map : gmap string string) : Prop :=
  forall k direct, ref_map !! k = Some direct -> str_contains "?" direct = false.

(** ** Vocabulary of the map builder's contract *)

(** A field of an object with a default, for reading a document whose shape
    is known. *)
Definition field (obj : json) (k : string) (dflt : json) : json :=
  match obj with
  | JObj fields => default dflt (assoc k fields)
  | _ => dflt
  end.

Definition entry_resource (entry : json) : json := field entry "resource" (JObj []).

Definition entry_identifiers (entry : json) : list json :=
  match field (entry_resource entry) "identifier" (JArr []) with
  | JArr identifiers => identifiers
  | _ => []
  end.

(** The entries the map builder reads without an exception: a dict whose
    [resource], when present, is a dict, whose [fullUrl], when present, is a
    string, and whose resource has, when it has any, a list of dicts as
    [identifier]. *)
Definition is_object (v : json) : bool :=
  match v with
  | JObj _ => true
  | _ => false
  end.

Definition is_string (v : json) : bool :=
  match v with
  | JStr _ => true
  | _ => false
  end.

Definition mappable_entry (entry : json) : bool :=
  is_object entry
  && is_object (entry_resource entry)
  && is_string (field entry "fullUrl" (JStr ""))
  && match field (entry_resource entry) "identifier" (JArr []) with
     | JArr identifiers => forallb is_object identifiers
     | _ => false
     end.

Section MapContract.
Context `{Externals}.

(** The final id of an entry: its [fullUrl] without ['urn:uuid:'] when it
    starts with that prefix, else the last path segment of its [fullUrl]
    when that contains a slash, else the declared id of its resource. *)
Definition final_id (entry : json) : json :=
  match field entry "fullUrl" (JStr "") with
  | JStr url =>
      if startswith url "urn:uuid:" then JStr (str_replace "urn:uuid:" "" url)
      else if str_contains "/" url then JStr (last_segment (str_split "/" url))
      else field (entry_resource entry) "id" (JStr "")
  | _ => JStr ""
  end.

(** What an entry registers, in the order of its identifiers: nothing
    when its final id is empty, else for every identifier with a non-empty
    system and a non-empty value the conditional reference of that
    identifier, mapped to the direct reference of the entry. *)
Definition identifier_registration (kind id : string) (identifier : json)
  : list (string * string) :=
  if py_truthy (field identifier "system" (JStr ""))
     && py_truthy (field identifier "value" (JStr ""))
  then [(kind +:+ "?identifier=" +:+ py_format (field identifier "system" (JStr ""))
         +:+ "|" +:+ py_format (field identifier "value" (JStr "")),
         kind +:+ "/" +:+ id)]
  else [].

Definition entry_registrations (entry : json) : list (string * string) :=
  if py_truthy (final_id entry) then
    flat_map (identifier_registration
                (py_format (field (entry_resource entry) "resourceType" (JStr "")))
                (py_format (final_id entry)))
             (entry_identifiers entry)
  else [].

(** All registrations of a bundle, in bundle order. *)
Definition registrations (entries : list json) : list (string * string) :=
  flat_map entry_registrations entries.

(** The value of the last registration of a key. *)
Definition last_registered (k : string) (regs : list (string * string)) : option string :=
  snd <$> last (filter (fun p => p.1 = k) regs).

(** The final id in the words of the specification: the temporary id
    without its prefix when the entry has one, the declared id of the
    resource otherwise. *)
Definition declared_final_id (entry : json) : json :=
  match field entry "fullUrl" (JStr "") with
  | JStr url =>
      if startswith url "urn:uuid:" then JStr (str_replace "urn:uuid:" "" url)
      else field (entry_resource entry) "id" (JStr "")
  | _ => field (entry_resource entry) "id" (JStr "")
  end.
End MapContract.

(** ** Vocabulary of the age rule *)

(** A birth date that [strptime] does not accept: text that is not a date
    of the form [YYYY-MM-DD], or a value that is not text at all. *)
Definition unparseable `{Externals} (birth_date : json) : Prop :=
  match birth_date with
  | JStr s => strptime_ymd s = None
  | _ => True
  end.

(** ** What both rewriting passes have in common *)

(** A pass over a document that changes nothing but the text of reference
    fields: it keeps scalars, maps itself over the items of a list, and in a
    dict keeps the field names and maps itself over the value of every field
    that is not named [reference]. *)
Class ReferencePass (pass : json -> json) : Prop := {
  pass_null : pass JNull = JNull;
  pass_bool b : pass (JBool b) = JBool b;
  pass_num n : pass (JNum n) = JNum n;
  pass_str s : pass (JStr s) = JStr s;
  pass_arr items : pass (JArr items) = JArr (map pass items);
  pass_obj fields :
    exists fields',
      pass (JObj fields) = JObj fields'
      /\ map fst fields' = map fst fields
      /\ forall k, k <> "reference" -> assoc k fields' = pass <$> assoc k fields
}.

(** ** Vocabulary of the splitter's contract *)

(** A foundational entry: its kind is listed in the precedence table. *)
Definition foundational (entry : json) : bool :=
  kind_precedence (entry_kind entry) <? 99.

Definition foundational_entries (entries : list json) : list json :=
  filter (fun e => foundational e = true) entries.

Definition other_entries (entries : list json) : list json :=
  filter (fun e => foundational e = false) entries.

(** The entries of all sub-bundles, in sequence order; a sub-bundle
    without readable entries contributes none. *)
Definition all_entries (sub_bundles : list json) : list json :=
  concat (map (fun b => default [] (bundle_entries b)) sub_bundles).

(** ** Vocabulary of the resolver's error contract *)


(** The [k]-th chunk of the entries that are not foundational, and the
    [k]-th sub-bundle: the first one also holds the foundational entries. *)
Definition chunk_of (others : list json) (size k : nat) : list json :=
  take size (drop (k * size) others).

Definition sub_bundle_of (bundle_type : json) (foundationals others : list json)
    (size k : nat) : json :=
  JObj [("resourceType", JStr "Bundle");
        ("type", bundle_type);
        ("entry", JArr (match k with
                        | O => foundationals ++ chunk_of others size k
                        | S _ => chunk_of others size k
                        end))].

(** ** Sample documents *)

(** An entry stored under an absolute URL whose resource declares another
    id and one identifier. *)
Definition entry_with_url : json :=
  JObj [("fullUrl", JStr "http://example.org/fhir/Patient/123");
        ("resource",
          JObj [("resourceType", JStr "Patient");
                ("id", JStr "abc");
                ("identifier",
                  JArr [JObj [("system", JStr "urn:mrn"); ("value", JStr "42")]])])].

(** Two entries that declare the same identifier. *)
Definition entry_first_claim : json :=
  JObj [("fullUrl", JStr "urn:uuid:1111");
        ("resource",
          JObj [("resourceType", JStr "Organization");
                ("id", JStr "org-a");
                ("identifier",
                  JArr [JObj [("system", JStr "urn:org"); ("value", JStr "7")]])])].

Definition entry_second_claim : json :=
  JObj [("resource",
          JObj [("resourceType", JStr "Organization");
                ("id", JStr "org-b");
                ("identifier",
                  JArr [JObj [("system", JStr "urn:org"); ("value", JStr "7")];
                        JObj [("system", JStr ""); ("value", JStr "8")]])])].

(** A CHOA bundle: an encounter at a CHOA organization and a patient with
    the given fields. *)
Definition choa_bundle (patient_fields : list (string * json)) : json :=
  bundle_of
    [JObj [("fullUrl", JStr "urn:uuid:e1");
           ("resource",
             JObj [("resourceType", JStr "Encounter");
                   ("serviceProvider",
                     JObj [("reference", JStr "Organization/choa-egleston")])])];
     JObj [("fullUrl", JStr "urn:uuid:p1");
           ("resource", JObj (("resourceType", JStr "Patient") :: patient_fields))]].

(** A store that accepts every request and counts them, and one that
    rejects every request. *)
Definition accepting_store (w : nat) (b : json) : nat * bool := (S w, true).
Definition rejecting_store (w : nat) (b : json) : nat * bool := (S w, false).

(** A patient with a conditional reference to a practitioner, and a
    condition with a qualifying SNOMED code. *)
Definition qualifying_bundle : json :=
  bundle_of
    [JObj [("fullUrl", JStr "urn:uuid:p1");
           ("resource",
             JObj [("resourceType", JStr "Patient");
                   ("id", JStr "p1");
                   ("birthDate", JStr "1960-02-03");
                   ("generalPractitioner",
                     JArr [JObj [("reference",
                                   JStr "Practitioner?identifier=http://hl7.org/fhir/sid/us-npi|1234567890")]])])];
     JObj [("fullUrl", JStr "urn:uuid:c1");
           ("resource",
             JObj [("resourceType", JStr "Condition");
                   ("subject", JObj [("reference", JStr "urn:uuid:p1")]);
                   ("code",
                     JObj [("coding",
                             JArr [JObj [("system", JStr "http://snomed.info/sct");
                                         ("code", JStr "13645005")]])])])]].


(** A bundle in the order Synthea writes it, and a resource with one
    resolvable and one unresolvable conditional reference. *)
Definition unordered_bundle : json :=
  bundle_of [entry_of_kind "Observation"; entry_of_kind "Patient";
             entry_of_kind "Condition"; entry_of_kind "Organization";
             entry_of_kind "Encounter"; entry_of_kind "Practitioner"].

Definition referring_resource : json :=
  JObj [("resourceType", JStr "Encounter");
        ("participant",
          JArr [JObj [("individual",
                       JObj [("reference", JStr "Practitioner?identifier=sys|1");
                             ("display", JStr "Dr. Who?")])]]);
        ("location", JObj [("reference", JStr "Location?identifier=sys|val")]);
        ("subject", JObj [("reference", JStr "urn:uuid:p1")])].

Definition sample_ref_map : gmap string string :=
  {[ "Practitioner?identifier=sys|1" := "Practitioner/abc" ]}.

(** ** Vocabulary of the scanner's contract *)

(** The conditional references among the reference fields of a document. *)
Definition conditional_references (v : json) : gset string :=
  list_to_set (filter (fun s => str_contains "?" s = true) (reference_fields v)).

(** How the pass over temporary ids rewrites one reference. *)
Definition without_urn_uuid (s : string) : string :=
  if str_contains "urn:uuid:" s then str_replace "urn:uuid:" "" s else s.

(** [sep.join(l)] on strings. *)
Fixpoint str_join (sep : string) (l : list string) : string :=
  match l with
  | [] => EmptyString
  | [x] => x
  | x :: rest => x +:+ sep +:+ str_join sep rest
  end.

(** ** Vocabulary of the age threshold *)

(** One date (year, month, day) is before another. *)
Definition date_before (a b : Z * Z * Z) : Prop :=
  match a, b with
  | (ay, am, ad), (b_y, bm, bd) =>
      ay < b_y \/ (ay = b_y /\ (am < bm \/ (am = bm /\ ad < bd)))
  end.

(** ** Vocabulary of the processor's accounting *)

Definition is_uploaded (o : outcome) : bool :=
  match o with
  | Uploaded _ => true
  | _ => false
  end.

Definition is_failed (o : outcome) : bool :=
  match o with
  | Failed => true
  | _ => false
  end.

Definition is_skipped (o : outcome) : bool :=
  match o with
  | SkippedChoaAdult => true
  | _ => false
  end.

Definition is_without_patient (o : outcome) : bool :=
  match o with
  | NoPatientFound => true
  | _ => false
  end.

(** How many outcomes of a run satisfy a test. *)
Definition count_outcomes (p : outcome -> bool) (os : list outcome) : Z :=
  Z.of_nat (length (filter (fun o => p o = true) os)).

(** The record of a qualifying patient has the four keys that
    [create_device_associations] and the emulator read. *)
Definition patient_record (record : json) : Prop :=
  exists patient_id name birth_date pediatric,
    record = JObj [("id", patient_id); ("name", JStr name);
                   ("birthDate", birth_date); ("isPediatric", JBool pediatric)].

Section Submissions.
Context `{Externals} {World : Type} (post_bundle : World -> json -> World * bool).

(** What one bundle of the stream sends to the store: the sub-bundles of
    its prepared form, up to the first that the store rejects, when it
    passes the gate and can be prepared; nothing otherwise. *)
Definition submitted (w : World) (bundle : json) : World :=
  match classify bundle, prepare_bundle bundle with
  | Some (Proceed _ _), Some (_, sub_bundles) => (post_all post_bundle w sub_bundles).1
  | _, _ => w
  end.
End Submissions.

(** ** Vocabulary of the prepared bundle *)


(** An entry that carries a [PUT] request. *)
Definition put_request (entry : json) : Prop :=
  exists url, field entry "request" JNull = JObj [("method", JStr "PUT"); ("url", url)].


(** ** Vocabulary of the synthesizer's contract *)

Section StubContract.
Context `{Externals}.


End StubContract.




(** * Properties *)

#[local] Set Warnings "-clear-no-such-hyp".

(** ** Induction on JSON documents *)

Lemma json_ind (P : json -> Prop) :
  P JNull ->
  (forall b, P (JBool b)) ->
  (forall n, P (JNum n)) ->
  (forall s, P (JStr s)) ->
  (forall items, Forall P items -> P (JArr items)) ->
  (forall fields, Forall (fun kv => P (snd kv)) fields -> P (JObj fields)) ->
  forall v, P v.
Proof.
  intros Hnull Hbool Hnum Hstr Harr Hobj.
  assert (Hsize : forall n v, (json_size v <= n)%nat -> P v).
  { induction n as [|n IH]; intros v Hv.
    - destruct v; simpl in Hv; lia.
    - destruct v as [| | | |items|fields]; auto.
      + apply Harr. simpl in Hv. apply le_S_n in Hv.
        induction items as [|x items IHitems]; constructor; simpl in Hv.
        * apply IH. lia.
        * apply IHitems. lia.
      + apply Hobj. simpl in Hv. apply le_S_n in Hv.
        induction fields as [|[k x] fields IHfields]; constructor; simpl in Hv.
        * apply IH. simpl. lia.
        * apply IHfields. lia. }
  intros v. apply (Hsize (json_size v)). lia.
Qed.

(** ** The stable sort *)

Section SortKeyed.
Context {A : Type}.
Implicit Types (l : list (Z * A)) (k : Z) (x : A).

Lemma insert_keyed_perm k x l : insert_keyed k x l ≡ₚ (k, x) :: l.
Proof.
  induction l as [|[k' y] l IH]; simpl; [done|].
  destruct (k <=? k'); [done|].
  rewrite IH. apply Permutation_swap.
Qed.

Lemma sort_keyed_perm l : sort_keyed l ≡ₚ l.
Proof.
  induction l as [|[k x] l IH]; simpl; [done|].
  by rewrite insert_keyed_perm, IH.
Qed.

Lemma insert_keyed_sorted k x l :
  StronglySorted key_le l -> StronglySorted key_le (insert_keyed k x l).
Proof.
  induction 1 as [|[k' y] l Hl IH Hall]; simpl.
  - repeat constructor.
  - destruct (Z.leb_spec k k') as [Hle|Hgt].
    + constructor; [by constructor|].
      constructor; [done|].
      eapply Forall_impl; [exact Hall|].
      intros [k'' z]; unfold key_le; simpl in *. lia.
    + constructor; [done|].
      rewrite insert_keyed_perm. constructor; [|done].
      unfold key_le; simpl. lia.
Qed.

Lemma sort_keyed_sorted l : StronglySorted key_le (sort_keyed l).
Proof.
  induction l as [|[k x] l IH]; simpl; [constructor|].
  by apply insert_keyed_sorted.
Qed.

(** Stability: the elements of any one key keep their order. *)
Lemma insert_keyed_filter k0 k x l :
  filter (fun a => a.1 = k0) (insert_keyed k x l)
  = filter (fun a => a.1 = k0) ((k, x) :: l).
Proof.
  induction l as [|[k' y] l IH]; simpl; [done|].
  destruct (Z.leb_spec k k') as [Hle|Hgt]; [done|].
  rewrite filter_cons. rewrite IH. rewrite !filter_cons. simpl.
  repeat case_decide; simplify_eq; try done; lia.
Qed.

Lemma sort_keyed_filter k0 l :
  filter (fun a => a.1 = k0) (sort_keyed l) = filter (fun a => a.1 = k0) l.
Proof.
  induction l as [|[k x] l IH]; simpl; [done|].
  rewrite insert_keyed_filter, !filter_cons, IH. done.
Qed.
End SortKeyed.

Section PySorted.
Variable key : json -> option Z.

Lemma mapM_keyed l keyed :
  mapM (fun e => k ← key e; Some (k, e)) l = Some keyed ->
  keyed.*2 = l /\ Forall (fun a => key a.2 = Some a.1) keyed.
Proof.
  revert keyed. induction l as [|e l IH]; intros keyed Hm; simpl in Hm.
  - simplify_option_eq. split; constructor.
  - destruct (key e) as [k|] eqn:Hk; simpl in Hm; [|done].
    destruct (mapM _ l) as [keyed'|] eqn:Hl; simpl in Hm; [|done].
    simplify_option_eq. destruct (IH keyed' eq_refl) as [-> Hall].
    split; [done|]. by constructor.
Qed.

Lemma mapM_keyed_is_Some l :
  Forall (fun e => is_Some (key e)) l ->
  is_Some (mapM (fun e => k ← key e; Some (k, e)) l).
Proof.
  induction 1 as [|e l [k Hk] _ [keyed IH]]; simpl; [by eexists|].
  rewrite Hk; simpl. rewrite IH; simpl. by eexists.
Qed.

Lemma filter_keyed k (keyed : list (Z * json)) :
  Forall (fun a => key a.2 = Some a.1) keyed ->
  filter (fun e => key e = Some k) (keyed.*2) = (filter (fun a => a.1 = k) keyed).*2.
Proof.
  induction 1 as [|[k' e] keyed Hk _ IH]; [done|].
  simpl in Hk. rewrite fmap_cons, !filter_cons, IH. simpl.
  repeat case_decide; simplify_eq; try done; congruence.
Qed.

Lemma sorted_keyed_precedes (keyed : list (Z * json)) :
  Forall (fun a => key a.2 = Some a.1) keyed ->
  StronglySorted key_le keyed ->
  StronglySorted (precedes key) (keyed.*2).
Proof.
  intros Hkeys Hsorted. induction Hsorted as [|[k e] keyed _ IH Hall]; simpl.
  - constructor.
  - apply Forall_cons in Hkeys as [Hk Hkeys]. simpl in Hk.
    constructor; [by apply IH|].
    apply Forall_fmap. rewrite Forall_forall in Hall, Hkeys |- *.
    intros [k' e'] Hin. simpl.
    exists k, k'. split; [done|]. split; [by apply (Hkeys (k', e'))|].
    by apply (Hall (k', e')).
Qed.

(** What [sorted] returns: a permutation of its argument, in key order,
    in which the elements of each key keep their relative order. *)
Lemma py_sorted_spec l out :
  py_sorted key l = Some out ->
  out ≡ₚ l
  /\ StronglySorted (precedes key) out
  /\ forall k, filter (fun e => key e = Some k) out = filter (fun e => key e = Some k) l.
Proof.
  unfold py_sorted. intros Hs.
  destruct (mapM _ l) as [keyed|] eqn:Hm; simpl in Hs; [|done].
  simplify_eq. apply mapM_keyed in Hm as [<- Hkeys].
  assert (Hkeys' : Forall (fun a => key a.2 = Some a.1) (sort_keyed keyed)).
  { by rewrite sort_keyed_perm. }
  split; [|split].
  - by rewrite sort_keyed_perm.
  - apply sorted_keyed_precedes; [done|]. apply sort_keyed_sorted.
  - intros k. rewrite !filter_keyed by done. by rewrite sort_keyed_filter.
Qed.

Lemma py_sorted_is_Some l :
  Forall (fun e => is_Some (key e)) l -> is_Some (py_sorted key l).
Proof.
  intros Hl. unfold py_sorted.
  destruct (mapM_keyed_is_Some l Hl) as [keyed ->]. simpl. by eexists.
Qed.

Lemma py_sorted_keys l out :
  py_sorted key l = Some out -> Forall (fun e => is_Some (key e)) l.
Proof.
  unfold py_sorted. intros Hs.
  destruct (mapM _ l) as [keyed|] eqn:Hm; simpl in Hs; [|done].
  apply mapM_keyed in Hm as [<- Hkeys].
  apply Forall_fmap. eapply Forall_impl; [exact Hkeys|].
  intros [k e] Hk; simpl in *. by eexists.
Qed.
End PySorted.

(** ** Entry orderer *)

Lemma assoc_set_field k v fields : assoc k (set_field k v fields) = Some v.
Proof.
  induction fields as [|[k' v'] fields IH]; simpl.
  - by rewrite String.eqb_refl.
  - destruct (String.eqb k k') eqn:Hk; simpl; rewrite Hk; [done|exact IH].
Qed.

Lemma assoc_set_field_ne k k' v fields :
  k <> k' -> assoc k' (set_field k v fields) = assoc k' fields.
Proof.
  intros Hne. induction fields as [|[k0 v0] fields IH]; simpl.
  - destruct (String.eqb_spec k' k); [congruence|done].
  - destruct (String.eqb_spec k k0) as [->|Hk]; simpl.
    + by destruct (String.eqb_spec k' k0).
    + rewrite IH. done.
Qed.

Lemma type_order_get_kind kind :
  type_order_get (JStr kind) = Some (kind_precedence kind).
Proof.
  unfold type_order_get, kind_precedence, type_order, listed_kinds. simpl.
  repeat (destruct (String.eqb kind _); [done|]). done.
Qed.

Lemma get_order_sortable entry :
  sortable_entry entry = true -> get_order entry = Some (kind_precedence (entry_kind entry)).
Proof.
  unfold sortable_entry, get_order, entry_kind.
  destruct entry as [| | | | |fields]; try done. simpl.
  destruct (assoc "resource" fields) as [[| | | | |rfields]|]; simpl; try done.
  destruct (assoc "resourceType" rfields) as [[]|]; simpl; try done.
  intros _. apply type_order_get_kind.
Qed.

Lemma StronglySorted_lookup {A : Type} (R : relation A) (l : list A) i j x y :
  StronglySorted R l -> (i < j)%nat -> l !! i = Some x -> l !! j = Some y -> R x y.
Proof.
  intros Hs. revert i j. induction Hs as [|a l _ IH Hall]; intros i j Hij Hi Hj; [done|].
  destruct j as [|j]; [lia|]. simpl in Hj.
  destruct i as [|i]; simpl in Hi.
  - simplify_eq. rewrite Forall_forall in Hall. apply Hall.
    by eapply list_elem_of_lookup_2.
  - apply (IH i j); [lia|done|done].
Qed.

Lemma filter_ext_Forall {A : Type} (P Q : A -> Prop)
    `{!forall x, Decision (P x)} `{!forall x, Decision (Q x)} (l : list A) :
  Forall (fun x => P x <-> Q x) l -> filter P l = filter Q l.
Proof.
  induction 1 as [|x l Hx _ IH]; [done|].
  rewrite !filter_cons, IH. repeat case_decide; tauto.
Qed.

Lemma sortable_filter_precedence p (l : list json) :
  Forall (fun e => sortable_entry e = true) l ->
  filter (fun e => kind_precedence (entry_kind e) = p) l
  = filter (fun e => get_order e = Some p) l.
Proof.
  intros Hl. apply filter_ext_Forall.
  eapply Forall_impl; [exact Hl|]. intros e He. simpl.
  rewrite (get_order_sortable e He). split; congruence.
Qed.

Lemma kind_precedence_range kind :
  ((kind ∈ listed_kinds) /\ (0 <= kind_precedence kind <= 4))
  \/ ((kind ∉ listed_kinds) /\ kind_precedence kind = 99).
Proof.
  unfold kind_precedence, listed_kinds. simpl.
  destruct (String.eqb_spec kind "Organization") as [->|?];
    [left; split; [rewrite list_elem_of_In; simpl; auto 10|simpl; lia]|].
  destruct (String.eqb_spec kind "Practitioner") as [->|?];
    [left; split; [rewrite list_elem_of_In; simpl; auto 10|simpl; lia]|].
  destruct (String.eqb_spec kind "PractitionerRole") as [->|?];
    [left; split; [rewrite list_elem_of_In; simpl; auto 10|simpl; lia]|].
  destruct (String.eqb_spec kind "Location") as [->|?];
    [left; split; [rewrite list_elem_of_In; simpl; auto 10|simpl; lia]|].
  destruct (String.eqb_spec kind "Patient") as [->|?];
    [left; split; [rewrite list_elem_of_In; simpl; auto 10|simpl; lia]|].
  right. split; [|done].
  rewrite list_elem_of_In. simpl. intuition congruence.
Qed.


(** C7.  [reorder_bundle_entries] is a stable sort of the entries by the
    precedence of their kind: on a bundle whose entries have a sort key it
    returns the bundle with its entries replaced by a permutation of them in
    which no entry stands before an entry of smaller precedence and the
    entries of one precedence keep their input order; the precedence is 0 to
    4 for Organization, Practitioner, PractitionerRole, Location, Patient
    and 99, after all of them, for every other kind. *)
Theorem reorder_bundle_entries_stable_sort (bundle : json) (entries : list json) :
  bundle_entries bundle = Some entries ->
  Forall (fun e => sortable_entry e = true) entries ->
  exists fields sorted,
    bundle = JObj fields
    /\ reorder_bundle_entries bundle = Some (JObj (set_field "entry" (JArr sorted) fields))
    /\ sorted ≡ₚ entries
    /\ (forall i j x y,
          sorted !! i = Some x -> sorted !! j = Some y ->
          kind_precedence (entry_kind y) < kind_precedence (entry_kind x) ->
          ~ (i < j)%nat)
    /\ (forall p,
          filter (fun e => kind_precedence (entry_kind e) = p) sorted
          = filter (fun e => kind_precedence (entry_kind e) = p) entries)
    /\ (forall kind, kind ∉ listed_kinds ->
          forall kind', kind' ∈ listed_kinds -> kind_precedence kind' < kind_precedence kind)
    /\ kind_precedence "Organization" < kind_precedence "Practitioner"
       < kind_precedence "PractitionerRole"
    /\ kind_precedence "PractitionerRole" < kind_precedence "Location"
       < kind_precedence "Patient".
Proof.
  intros Hentries Hsortable.
  unfold bundle_entries in Hentries.
  destruct bundle as [| | | | |fields]; try done. simpl in Hentries.
  assert (Hkeys : Forall (fun e => is_Some (get_order e)) entries).
  { eapply Forall_impl; [exact Hsortable|]. intros e He.
    rewrite (get_order_sortable e He). by eexists. }
  destruct (py_sorted_is_Some get_order entries Hkeys) as [sorted Hsorted].
  destruct (py_sorted_spec get_order entries sorted Hsorted) as (Hperm & Hord & Hstable).
  assert (Hsortable' : Forall (fun e => sortable_entry e = true) sorted).
  { by rewrite Hperm. }
  exists fields, sorted. split; [done|]. split; [|split; [done|split; [|split]]].
  - unfold reorder_bundle_entries. simpl. rewrite Hentries. simpl.
    rewrite Hsorted. done.
  - intros i j x y Hx Hy Hlt Hij.
    destruct (StronglySorted_lookup _ _ _ _ _ _ Hord Hij Hx Hy) as (kx & ky & Hkx & Hky & Hle).
    rewrite Forall_forall in Hsortable'.
    rewrite get_order_sortable in Hkx by (apply Hsortable'; by eapply list_elem_of_lookup_2).
    rewrite get_order_sortable in Hky by (apply Hsortable'; by eapply list_elem_of_lookup_2).
    simplify_eq. lia.
  - intros p. rewrite !sortable_filter_precedence by done. apply Hstable.
  - split; [|split; vm_compute; done].
    intros kind Hkind kind' Hkind'.
    destruct (kind_precedence_range kind) as [[? _]|[_ ->]]; [done|].
    destruct (kind_precedence_range kind') as [[_ ?]|[? _]]; [lia|done].
Qed.

(** ** Transactional splitter *)

Example split_fits :
  split_bundle_entries (bundle_of [entry_of_kind "Observation"; entry_of_kind "Patient"]) 2
  = Some [bundle_of [entry_of_kind "Observation"; entry_of_kind "Patient"]].
Proof. reflexivity. Qed.

Example split_three :
  split_bundle_entries
    (bundle_of [entry_of_kind "Observation"; entry_of_kind "Patient";
                entry_of_kind "Condition"; entry_of_kind "Encounter"]) 2
  = Some [JObj [("resourceType", JStr "Bundle"); ("type", JStr "transaction");
                ("entry", JArr [entry_of_kind "Patient"; entry_of_kind "Observation"])];
          JObj [("resourceType", JStr "Bundle"); ("type", JStr "transaction");
                ("entry", JArr [entry_of_kind "Condition"])];
          JObj [("resourceType", JStr "Bundle"); ("type", JStr "transaction");
                ("entry", JArr [entry_of_kind "Encounter"])]].
Proof. vm_compute. reflexivity. Qed.

Example reorder_small :
  reorder_bundle_entries
    (bundle_of [entry_of_kind "Observation"; entry_of_kind "Patient";
                entry_of_kind "Condition"; entry_of_kind "Organization"])
  = Some (bundle_of [entry_of_kind "Organization"; entry_of_kind "Patient";
                     entry_of_kind "Observation"; entry_of_kind "Condition"]).
Proof. vm_compute. reflexivity. Qed.

(** C1.  What the splitter does when the foundational entries alone reach
    the ceiling: with 401 Patient entries and ceiling 400 the step of the
    chunk loop is negative, the loop has no turn and the result is the empty
    sequence, so every entry is lost; with exactly 400 foundational entries
    and one more entry the step is zero and [range] raises. *)
Theorem split_foundational_at_or_over_ceiling :
  split_bundle_entries (bundle_of (replicate 401 (entry_of_kind "Patient"))) 400
  = Some []
  /\ split_bundle_entries
       (bundle_of (replicate 400 (entry_of_kind "Organization")
                   ++ [entry_of_kind "Observation"])) 400
     = None.
Proof. split; vm_compute; reflexivity. Qed.

(** C3.  With 401 Patient entries, one Observation and ceiling 400 the
    splitter returns no sub-bundle at all, so the Observation, the one entry
    that is not foundational, is in none of them. *)
Theorem split_loses_other_entries :
  let entries := replicate 401 (entry_of_kind "Patient") ++ [entry_of_kind "Observation"] in
  other_entries entries = [entry_of_kind "Observation"]
  /\ exists sub_bundles,
       split_bundle_entries (bundle_of entries) 400 = Some sub_bundles
       /\ other_entries (all_entries sub_bundles) = [].
Proof.
  split; [vm_compute; reflexivity|].
  exists []. split; vm_compute; reflexivity.
Qed.

(** ** Reference rewriter *)

Lemma transform_reference_fields (obj : json) (ref_map : gmap string string) :
  Forall2 (rewritten_as ref_map)
    (reference_fields obj)
    (reference_fields (transform_conditional_to_direct obj ref_map)).
Proof.
  induction obj as [| | | |items IH|fields IH] using json_ind; simpl; try constructor.
  - induction IH as [|x items Hx _ IHitems]; simpl; [constructor|].
    by apply Forall2_app.
  - induction IH as [|[key value] fields Hv _ IHfields]; simpl; [constructor|].
    apply Forall2_app; [|exact IHfields]. simpl in Hv.
    destruct (String.eqb key "reference") eqn:Hkey; simpl; rewrite ?Hkey; [|exact Hv].
    destruct value as [| | |s| |]; simpl in *; rewrite ?Hkey; try exact Hv.
    unfold rewritten_as.
    destruct (str_contains "?" s) eqn:Hs; simpl; rewrite Hkey.
    + repeat constructor. rewrite Hs. by destruct (ref_map !! s).
    + repeat constructor. by rewrite Hs.
Qed.

Lemma transform_skeleton (obj : json) (ref_map : gmap string string) :
  skeleton (transform_conditional_to_direct obj ref_map) = skeleton obj.
Proof.
  induction obj as [| | | |items IH|fields IH] using json_ind; simpl; try done.
  - f_equal. induction IH as [|x items Hx _ IHitems]; simpl; [done|].
    by rewrite Hx, IHitems.
  - f_equal. induction IH as [|[key value] fields Hv _ IHfields]; simpl; [done|].
    rewrite IHfields. f_equal. simpl in Hv.
    destruct (String.eqb key "reference") eqn:Hkey; simpl.
    + destruct value as [| | |s| |]; simpl in *; rewrite ?Hkey;
        try done; try (by rewrite Hv).
      destruct (str_contains "?" s); simpl; by rewrite Hkey.
    + rewrite Hkey. by rewrite Hv.
Qed.

(** C4.  [transform_conditional_to_direct] is a total function that, for
    every document and every reference map, rewrites each reference field as
    the map says (a conditional reference that is a key becomes the mapped
    reference, one that is no key stays verbatim, and so does a reference
    that is not conditional) and leaves everything else, field names and
    field order included, as it was; and when the map maps to direct
    references, no conditional reference that is a key of the map is left in
    the rewritten document. *)
Theorem transform_conditional_to_direct_contract
    (obj : json) (ref_map : gmap string string) :
  Forall2 (rewritten_as ref_map)
    (reference_fields obj)
    (reference_fields (transform_conditional_to_direct obj ref_map))
  /\ skeleton (transform_conditional_to_direct obj ref_map) = skeleton obj
  /\ (direct_valued ref_map ->
      forall ref,
        str_contains "?" ref = true -> is_Some (ref_map !! ref) ->
        ref ∉ reference_fields (transform_conditional_to_direct obj ref_map)).
Proof.
  split; [apply transform_reference_fields|].
  split; [apply transform_skeleton|].
  intros Hdirect ref Hcond [direct Hdirect_ref] Hin.
  pose proof (transform_reference_fields obj ref_map) as Hall.
  apply list_elem_of_lookup in Hin as [i Hi].
  destruct (Forall2_lookup_r _ _ _ _ _ Hall Hi) as (s & _ & Hrel).
  unfold rewritten_as in Hrel.
  destruct (str_contains "?" s) eqn:Hs.
  - destruct (ref_map !! s) as [d|] eqn:Hd.
    + subst ref. apply Hdirect in Hd. congruence.
    + subst ref. congruence.
  - subst ref. congruence.
Qed.

(** ** Stub synthesizer *)

Lemma prefix_char c c' s :
  String.prefix (String c EmptyString) (String c' s) = Ascii.eqb c' c.
Proof.
  simpl. destruct (Ascii.ascii_dec c c') as [->|Hne].
  - rewrite Ascii.eqb_refl. by destruct s.
  - symmetry. apply Ascii.eqb_neq. congruence.
Qed.

Lemma str_contains_char_cons c c' s :
  str_contains (String c EmptyString) (String c' s)
  = Ascii.eqb c' c || str_contains (String c EmptyString) s.
Proof.
  change (str_contains (String c EmptyString) (String c' s))
    with (String.prefix (String c EmptyString) (String c' s)
          || str_contains (String c EmptyString) s).
  by rewrite prefix_char.
Qed.

(** Splitting at the first separator of a string that has one. *)
Lemma str_split1_contains c s :
  str_contains (String c EmptyString) s = true ->
  exists a b,
    str_split1 c s = [a; b]
    /\ s = a +:+ String c b
    /\ str_contains (String c EmptyString) a = false.
Proof.
  induction s as [|c' s IH]; [done|].
  rewrite str_contains_char_cons. simpl.
  destruct (Ascii.eqb_spec c' c) as [->|Hne]; simpl.
  - intros _. by exists EmptyString, s.
  - intros Hs. destruct (IH Hs) as (a & b & -> & -> & Ha).
    exists (String c' a), b. split; [done|]. split; [done|].
    rewrite str_contains_char_cons, Ha.
    destruct (Ascii.eqb_spec c' c); [done|]. done.
Qed.

Section SynthesizerFacts.
Context `{Externals}.

Lemma parse_identifier_ref_Some ref system value :
  parse_identifier_ref ref = Some (system, value) ->
  exists target query identifier_value rest,
    ref = target +:+ String "?" query
    /\ parse_qs query !! "identifier" = Some (identifier_value, rest)
    /\ identifier_value = system +:+ String "|" value.
Proof.
  unfold parse_identifier_ref.
  destruct (str_contains "?" ref) eqn:Href; simpl; [|done].
  destruct (str_split1_contains _ _ Href) as (target & query & -> & -> & _).
  destruct (parse_qs query !! "identifier") as [[identifier_value rest]|] eqn:Hq;
    simpl; [|done].
  destruct (String.eqb identifier_value ""); simpl; [done|].
  destruct (str_contains "|" identifier_value) eqn:Hbar; simpl; [|done].
  destruct (str_split1_contains _ _ Hbar) as (sys & val & -> & -> & _).
  intros [= <- <-]. by exists target, query, (sys +:+ String "|" val), rest.
Qed.

Lemma synthesized_id stub :
  synthesized stub -> exists id, py_getitem stub "id" = Some (JStr id).
Proof.
  intros [npi|ref s Hs|ref s Hs].
  - by eexists.
  - unfold create_location_from_ref in Hs.
    destruct (parse_identifier_ref ref) as [[system value]|]; simpl in Hs; [|done].
    simplify_eq. by eexists.
  - unfold create_organization_from_ref in Hs.
    destruct (parse_identifier_ref ref) as [[system value]|]; simpl in Hs; [|done].
    simplify_eq. by eexists.
Qed.

Lemma new_stub_entries_synthesized conditional_refs entry :
  entry ∈ new_stub_entries conditional_refs ->
  exists stub id,
    synthesized stub
    /\ py_getitem stub "id" = Some (JStr id)
    /\ entry = JObj [("fullUrl", JStr ("urn:uuid:" +:+ id)); ("resource", stub)].
Proof.
  unfold new_stub_entries. rewrite !elem_of_app, !list_elem_of_omap.
  intros [(ref & _ & Hentry)|[(npi & _ & Hentry)|(ref & _ & Hentry)]].
  - destruct (create_organization_from_ref ref) as [stub|] eqn:Hstub; simpl in Hentry; [|done].
    assert (Hsyn : synthesized stub) by (by eapply synthesized_organization).
    destruct (synthesized_id stub Hsyn) as [id Hid].
    unfold stub_entry in Hentry. rewrite Hid in Hentry. simpl in Hentry. simplify_eq.
    by exists stub, id.
  - assert (Hsyn : synthesized (create_practitioner_from_npi npi)) by constructor.
    destruct (synthesized_id _ Hsyn) as [id Hid].
    unfold stub_entry in Hentry. rewrite Hid in Hentry. simpl in Hentry. simplify_eq.
    by eexists _, id.
  - destruct (create_location_from_ref ref) as [stub|] eqn:Hstub; simpl in Hentry; [|done].
    assert (Hsyn : synthesized stub) by (by eapply synthesized_location).
    destruct (synthesized_id stub Hsyn) as [id Hid].
    unfold stub_entry in Hentry. rewrite Hid in Hentry. simpl in Hentry. simplify_eq.
    by exists stub, id.
Qed.
End SynthesizerFacts.



Lemma conditional_filter_app (l1 l2 : list string) :
  list_to_set (C := gset string) (filter (fun s => str_contains "?" s = true) (l1 ++ l2))
  = list_to_set (filter (fun s => str_contains "?" s = true) l1)
    ∪ list_to_set (filter (fun s => str_contains "?" s = true) l2).
Proof. by rewrite filter_app, list_to_set_app_L. Qed.

Lemma extract_accumulates (obj : json) (refs : gset string) :
  extract_conditional_refs_from_resource obj refs = refs ∪ conditional_references obj.
Proof.
  revert refs. unfold conditional_references.
  induction obj as [| | | |items IH|fields IH] using json_ind; intros refs; simpl;
    try set_solver.
  - revert refs. induction IH as [|x items Hx _ IHitems]; intros refs; simpl.
    + set_solver.
    + rewrite IHitems, Hx, conditional_filter_app. set_solver.
  - revert refs. induction IH as [|[key value] fields Hv _ IHfields]; intros refs; simpl.
    + set_solver.
    + rewrite IHfields, conditional_filter_app. simpl in Hv.
      destruct (String.eqb key "reference") eqn:Hkey; simpl.
      * destruct value as [| | |s| |]; simpl in *; try (rewrite Hv; set_solver).
        rewrite filter_cons, filter_nil.
        destruct (str_contains "?" s) eqn:Hs; case_decide; try done; set_solver.
      * rewrite Hv. set_solver.
Qed.

Lemma prefix_app (old s : string) : String.prefix old (old +:+ s) = true.
Proof.
  induction old as [|c old IH]; simpl; [by destruct s|].
  destruct (Ascii.ascii_dec c c); [exact IH|done].
Qed.

Lemma str_split_nonempty c s : str_split c s <> [].
Proof.
  destruct s as [|c' s]; simpl; [done|].
  destruct (Ascii.eqb c' c); [done|]. by destruct (str_split c s).
Qed.

Section StubIdentity.
Context `{Externals}.











(** What [inject_referenced_resources] does to the entries. *)
Lemma inject_entries bundle bundle1 :
  inject_referenced_resources bundle = Some bundle1 ->
  exists fields fields1 items conditional_refs,
    bundle = JObj fields
    /\ bundle1 = JObj fields1
    /\ bundle_entries bundle = Some items
    /\ collect_conditional_refs items ∅ = Some conditional_refs
    /\ bundle_entries bundle1 = Some (new_stub_entries conditional_refs ++ items).
Proof.
  unfold inject_referenced_resources, bundle_entries.
  destruct bundle as [| | | | |fields]; try done. simpl.
  destruct (py_iter (default (JArr []) (assoc "entry" fields))) as [items|] eqn:Hiter;
    simpl; [|done].
  destruct (collect_conditional_refs items ∅) as [conditional_refs|] eqn:Hrefs;
    simpl; [|done].
  destruct (new_stub_entries conditional_refs) as [|stub stubs] eqn:Hnew.
  - intros [= <-]. exists fields, fields, items, conditional_refs.
    simpl. rewrite Hiter, Hnew. done.
  - destruct (default (JArr []) (assoc "entry" fields)) as [| | | |old|] eqn:Hentry;
      try done.
    simpl in Hiter. injection Hiter as ->.
    intros [= <-]. eexists fields, _, items, conditional_refs.
    split; [done|]. split; [done|]. split; [done|]. split; [done|].
    simpl. rewrite assoc_set_field. simpl. by rewrite Hnew.
Qed.


End StubIdentity.


(** ** Reference map builder *)

Lemma foldl_insert_lookup (regs : list (string * string)) (acc : gmap string string) k :
  foldl (fun m p => <[p.1 := p.2]> m) acc regs !! k
  = match last (filter (fun p => p.1 = k) regs) with
    | Some p => Some p.2
    | None => acc !! k
    end.
Proof.
  revert acc. induction regs as [|[k' v] regs IH]; intros acc; simpl; [done|].
  rewrite IH, filter_cons. simpl.
  destruct (decide (k' = k)) as [->|Hne].
  - destruct (filter _ regs) as [|q l] eqn:Hf; simpl.
    + by rewrite lookup_insert_eq.
    + destruct (last (q :: l)) eqn:Hl; [done|]. by apply last_None in Hl.
  - destruct (last _); [done|]. by rewrite lookup_insert_ne.
Qed.

Section MapBuilder.
Context `{Externals}.

Lemma py_get_field obj k dflt :
  is_object obj = true -> py_get obj k dflt = Some (field obj k dflt).
Proof. by destruct obj. Qed.

Lemma for_each_foldl {A B C : Type} (body : A -> B -> option A) (f : B -> list C)
    (step : A -> C -> A) (l : list B) (acc : A) :
  Forall (fun x => forall a, body a x = Some (foldl step a (f x))) l ->
  for_each body acc l = Some (foldl step acc (flat_map f l)).
Proof.
  intros Hall. revert acc.
  induction Hall as [|x l Hx _ IH]; intros acc; simpl; [done|].
  rewrite Hx. simpl. rewrite IH. by rewrite foldl_app.
Qed.

Lemma register_identifier_object rt uuid identifier (acc : gmap string string) :
  is_object identifier = true ->
  register_identifier rt uuid acc identifier
  = Some (foldl (fun m p => <[p.1 := p.2]> m) acc
            (identifier_registration (py_format rt) (py_format uuid) identifier)).
Proof.
  intros Hid. unfold register_identifier, identifier_registration.
  rewrite !py_get_field by done. simpl.
  by destruct (py_truthy (field identifier "system" (JStr ""))
               && py_truthy (field identifier "value" (JStr ""))).
Qed.

Lemma register_identifiers rt uuid (ids : list json) (acc : gmap string string) :
  forallb is_object ids = true ->
  for_each (register_identifier rt uuid) acc ids
  = Some (foldl (fun m p => <[p.1 := p.2]> m) acc
            (flat_map (identifier_registration (py_format rt) (py_format uuid)) ids)).
Proof.
  intros Hids. apply for_each_foldl.
  apply Forall_forall. intros identifier Hin a.
  apply register_identifier_object.
  rewrite forallb_forall in Hids. apply Hids. by apply list_elem_of_In.
Qed.

Lemma entry_final_id_mappable entry :
  mappable_entry entry = true ->
  entry_final_id (field entry "fullUrl" (JStr "")) (entry_resource entry)
  = Some (final_id entry).
Proof.
  unfold mappable_entry, final_id, entry_final_id. rewrite !andb_true_iff.
  intros [[[_ Hres] Hurl] _].
  destruct (field entry "fullUrl" (JStr "")) as [| | |url| |]; try done.
  destruct (startswith url "urn:uuid:"); [done|].
  destruct (str_contains "/" url); [done|].
  by apply py_get_field.
Qed.

Lemma register_entry_mappable entry (acc : gmap string string) :
  mappable_entry entry = true ->
  register_entry acc entry
  = Some (foldl (fun m p => <[p.1 := p.2]> m) acc (entry_registrations entry)).
Proof.
  intros Hentry. pose proof Hentry as Hparts.
  unfold mappable_entry in Hparts. rewrite !andb_true_iff in Hparts.
  destruct Hparts as [[[Hobj Hres] Hurl] Hids].
  unfold register_entry, entry_registrations.
  rewrite (py_get_field entry "resource") by done. simpl.
  fold (entry_resource entry).
  rewrite (py_get_field (entry_resource entry) "resourceType") by done. simpl.
  rewrite (py_get_field entry "fullUrl") by done. simpl.
  rewrite entry_final_id_mappable by done. simpl.
  destruct (py_truthy (final_id entry)); simpl; [|done].
  rewrite (py_get_field (entry_resource entry) "identifier") by done. simpl.
  unfold entry_identifiers.
  destruct (field (entry_resource entry) "identifier" (JArr [])) as [| | | |ids|];
    try done.
  simpl. by apply register_identifiers.
Qed.

Lemma register_entries_mappable (entries : list json) (acc : gmap string string) :
  Forall (fun e => mappable_entry e = true) entries ->
  for_each register_entry acc entries
  = Some (foldl (fun m p => <[p.1 := p.2]> m) acc (registrations entries)).
Proof.
  intros Hall. revert acc.
  induction Hall as [|entry entries Hentry _ IH]; intros acc; simpl; [done|].
  rewrite register_entry_mappable by done. simpl.
  rewrite IH. unfold registrations. simpl. by rewrite foldl_app.
Qed.

Lemma build_map_mappable bundle (entries : list json) :
  bundle_entries bundle = Some entries ->
  Forall (fun e => mappable_entry e = true) entries ->
  build_conditional_reference_map bundle
  = Some (foldl (fun m p => <[p.1 := p.2]> m) ∅ (registrations entries)).
Proof.
  unfold bundle_entries, build_conditional_reference_map. intros Hentries Hall.
  destruct (py_get bundle "entry" (JArr [])) as [v|]; simpl in *; [|done].
  rewrite Hentries. simpl. by apply register_entries_mappable.
Qed.
End MapBuilder.

(** C6, as amended.  On a bundle whose entries the map builder can read,
    [build_conditional_reference_map] returns a map, and the map sends every
    key to the value of the last registration of that key in bundle order,
    where an entry registers, for each of its identifiers with a non-empty
    system and a non-empty value, [<kind>?identifier=<system>|<value>] to
    [<kind>/<final id>], and registers nothing when its final id is empty;
    the final id is the [fullUrl] without ['urn:uuid:'] when it starts with
    that prefix, else the last path segment of a [fullUrl] that contains a
    slash, else the declared id of the resource. *)
Theorem build_conditional_reference_map_last_write_wins `{Externals}
    (bundle : json) (entries : list json) :
  bundle_entries bundle = Some entries ->
  Forall (fun e => mappable_entry e = true) entries ->
  exists ref_map,
    build_conditional_reference_map bundle = Some ref_map
    /\ forall k, ref_map !! k = last_registered k (registrations entries).
Proof.
  intros Hentries Hall. eexists. split; [by apply build_map_mappable|].
  intros k. rewrite foldl_insert_lookup. unfold last_registered.
  by destruct (last _).
Qed.

(** C6, the claim as stated fails: an entry stored under an absolute URL is
    registered under the last path segment of that URL, not under the id its
    resource declares. *)
Lemma build_map_uses_url_segment :
  let bundle := bundle_of [entry_with_url] in
  ~ (exists ref_map,
       build_conditional_reference_map (H := sample_externals) bundle = Some ref_map
       /\ ref_map !! "Patient?identifier=urn:mrn|42"
          = Some ("Patient/" +:+
                  py_format (H := sample_externals)
                    (declared_final_id entry_with_url))).
Proof.
  intros bundle (ref_map & Hmap & Hk).
  vm_compute in Hmap. injection Hmap as <-. vm_compute in Hk. discriminate.
Qed.

Example build_map_url_segment_value :
  build_conditional_reference_map (H := sample_externals) (bundle_of [entry_with_url])
  = Some {[ "Patient?identifier=urn:mrn|42" := "Patient/123" ]}.
Proof. vm_compute. reflexivity. Qed.

(** ** Age rule and CHOA gate *)

Section AgeRule.
Context `{Externals} {World : Type} (post_bundle : World -> json -> World * bool).

Lemma calculate_age_unparseable birth_date :
  unparseable birth_date -> calculate_age birth_date = 0.
Proof.
  unfold unparseable, calculate_age. destruct birth_date; try done.
  by intros ->.
Qed.

Lemma is_pediatric_unparseable fields birth_date :
  assoc "birthDate" fields = Some birth_date ->
  py_truthy birth_date = true ->
  unparseable birth_date ->
  is_pediatric (JObj fields) = Some true.
Proof.
  intros Hget Htruthy Hbad. unfold is_pediatric. simpl.
  rewrite Hget. simpl. rewrite Htruthy.
  by rewrite (calculate_age_unparseable _ Hbad).
Qed.

Lemma is_pediatric_missing fields :
  (assoc "birthDate" fields = None
   \/ exists v, assoc "birthDate" fields = Some v /\ py_truthy v = false) ->
  is_pediatric (JObj fields) = Some false.
Proof.
  unfold is_pediatric. simpl. intros [->|(v & -> & Hv)]; simpl; [done|].
  by rewrite Hv.
Qed.

(** C10.  A patient whose [birthDate] is present and not empty but is not
    a date [strptime] accepts has computed age 0 and is pediatric; a
    patient whose [birthDate] is absent or empty is not pediatric.  So,
    of two bundles of a CHOA patient, the processor goes on with the one
    whose patient has such a malformed birth date, and skips the one whose
    patient has none, counting it as a non-pediatric CHOA patient. *)
Theorem malformed_birth_date_counts_as_pediatric (fields : list (string * json)) :
  (forall birth_date,
     assoc "birthDate" fields = Some birth_date ->
     py_truthy birth_date = true ->
     unparseable birth_date ->
     calculate_age birth_date = 0 /\ is_pediatric (JObj fields) = Some true)
  /\ ((assoc "birthDate" fields = None
       \/ exists v, assoc "birthDate" fields = Some v /\ py_truthy v = false) ->
      is_pediatric (JObj fields) = Some false)
  /\ (forall bundle entries patient_entry st w,
        bundle_entries bundle = Some entries ->
        find_patient entries = Some (Some (patient_entry, JObj fields)) ->
        is_choa_patient bundle = Some true ->
        (forall birth_date,
           assoc "birthDate" fields = Some birth_date ->
           py_truthy birth_date = true ->
           unparseable birth_date ->
           classify bundle = Some (Proceed patient_entry (JObj fields))
           /\ (process_bundle post_bundle st w bundle).2 <> SkippedChoaAdult
           /\ skipped_choa_adult (process_bundle post_bundle st w bundle).1.1
              = skipped_choa_adult st)
        /\ ((assoc "birthDate" fields = None
             \/ exists v, assoc "birthDate" fields = Some v /\ py_truthy v = false) ->
            classify bundle = Some ChoaAdult
            /\ (process_bundle post_bundle st w bundle).2 = SkippedChoaAdult
            /\ skipped_choa_adult (process_bundle post_bundle st w bundle).1.1
               = skipped_choa_adult st + 1)).
Proof.
  split; [|split].
  - intros birth_date Hget Htruthy Hbad. split.
    + by apply calculate_age_unparseable.
    + by eapply is_pediatric_unparseable.
  - apply is_pediatric_missing.
  - intros bundle entries patient_entry st w Hentries Hfind Hchoa. split.
    + intros birth_date Hget Htruthy Hbad.
      assert (Hclass : classify bundle = Some (Proceed patient_entry (JObj fields))).
      { pose proof (is_pediatric_unparseable _ _ Hget Htruthy Hbad) as Hped.
        unfold is_pediatric in Hped. simpl in Hped. injection Hped as Hped.
        unfold classify. rewrite Hentries. simpl. rewrite Hfind. simpl.
        rewrite Hchoa. simpl. by rewrite Hped. }
      split; [done|]. unfold process_bundle. rewrite Hclass.
      destruct (prepare_bundle bundle) as [[bundle' sub_bundles]|]; [|done].
      destruct (post_all post_bundle w sub_bundles) as [w' ok].
      destruct ok; simpl; [|done].
      destruct (has_qualifying_condition bundle') as [q|]; [|done].
      destruct (q && _); [|done].
      by destruct (patient_after_rewrite _ _ ≫= qualifying_record).
    + intros Hmissing.
      assert (Hclass : classify bundle = Some ChoaAdult).
      { pose proof (is_pediatric_missing _ Hmissing) as Hped.
        unfold is_pediatric in Hped. simpl in Hped. injection Hped as Hped.
        unfold classify. rewrite Hentries. simpl. rewrite Hfind. simpl.
        rewrite Hchoa. simpl. by rewrite Hped. }
      split; [done|]. unfold process_bundle. by rewrite Hclass.
Qed.
End AgeRule.

(** ** Bundle processor: the loop over the stream *)

Section ProcessorLoop.
Context `{Externals} {World : Type} (post_bundle : World -> json -> World * bool).


Lemma process_bundles_length st w bundles :
  length (process_bundles post_bundle st w bundles).2 = length bundles.
Proof.
  revert st w. induction bundles as [|bundle bundles IH]; intros st w; simpl; [done|].
  destruct (process_bundle post_bundle st w bundle) as [[st' w'] o].
  specialize (IH st' w').
  destruct (process_bundles post_bundle st' w' bundles) as [[st'' w''] os].
  simpl in *. by rewrite IH.
Qed.


End ProcessorLoop.

(** ** Both rewriting passes leave everything but reference text alone *)

Lemma assoc_map_fields (g : string * json -> string * json) (pass : json -> json)
    (fields : list (string * json)) (k : string) :
  (forall key value, (g (key, value)).1 = key) ->
  (forall key value, key <> "reference" -> (g (key, value)).2 = pass value) ->
  k <> "reference" ->
  assoc k (map g fields) = pass <$> assoc k fields.
Proof.
  intros Hfst Hsnd Hk. induction fields as [|[key value] fields IH]; simpl; [done|].
  specialize (Hfst key value). specialize (Hsnd key value).
  destruct (g (key, value)) as [key' value'] eqn:Hg. simpl in *. subst key'.
  destruct (String.eqb_spec k key) as [->|Hne]; simpl; [|exact IH].
  by rewrite Hsnd.
Qed.

Lemma map_fst_fields (g : string * json -> string * json) (fields : list (string * json)) :
  (forall key value, (g (key, value)).1 = key) ->
  map fst (map g fields) = map fst fields.
Proof.
  intros Hfst. induction fields as [|[key value] fields IH]; simpl; [done|].
  by rewrite Hfst, IH.
Qed.

#[export] Instance transform_conditional_to_direct_pass (ref_map : gmap string string) :
  ReferencePass (fun obj => transform_conditional_to_direct obj ref_map).
Proof.
  split; try done.
  intros fields. eexists. split; [reflexivity|]. split.
  - apply map_fst_fields. intros key value.
    destruct (String.eqb key "reference" && is_conditional_reference value); [|done].
    by destruct value.
  - intros k Hk.
    apply (assoc_map_fields _ (fun obj => transform_conditional_to_direct obj ref_map));
      [| |done].
    + intros key value.
      destruct (String.eqb key "reference" && is_conditional_reference value); [|done].
      by destruct value.
    + intros key value Hkey.
      destruct (String.eqb_spec key "reference") as [->|_]; [done|]. done.
Qed.

#[export] Instance transform_references_in_resource_pass :
  ReferencePass transform_references_in_resource.
Proof.
  split; try done.
  intros fields. eexists. split; [reflexivity|]. split.
  - apply map_fst_fields. intros key value.
    destruct (String.eqb key "reference"); [|done]. by destruct value.
  - intros k Hk. apply (assoc_map_fields _ transform_references_in_resource); [| |done].
    + intros key value. destruct (String.eqb key "reference"); [|done]. by destruct value.
    + intros key value Hkey.
      destruct (String.eqb_spec key "reference") as [->|_]; [done|]. done.
Qed.

#[export] Instance compose_pass (f g : json -> json) :
  ReferencePass f -> ReferencePass g -> ReferencePass (fun v => g (f v)).
Proof.
  intros Hf Hg. split; intros.
  - by rewrite !pass_null.
  - by rewrite !pass_bool.
  - by rewrite !pass_num.
  - by rewrite !pass_str.
  - rewrite !pass_arr. f_equal. by rewrite map_map.
  - destruct (pass_obj (pass := f) fields) as (fields1 & -> & Hkeys1 & Hget1).
    destruct (pass_obj (pass := g) fields1) as (fields2 & -> & Hkeys2 & Hget2).
    exists fields2. split; [done|]. split; [congruence|].
    intros k Hk. rewrite Hget2, Hget1 by done. by destruct (assoc k fields).
Qed.

Lemma existsb_pointwise {A : Type} (f g : A -> bool) (l : list A) :
  (forall x, f x = g x) -> existsb f l = existsb g l.
Proof. intros Hfg. induction l as [|x l IH]; simpl; [done|]. by rewrite Hfg, IH. Qed.

Section PassFacts.
Context (pass : json -> json) `{!ReferencePass pass}.

Lemma pass_py_get obj k dflt :
  k <> "reference" -> pass dflt = dflt ->
  py_get (pass obj) k dflt = pass <$> py_get obj k dflt.
Proof.
  intros Hk Hdflt. destruct obj as [|b|n|s|items|fields]; simpl.
  - by rewrite pass_null.
  - by rewrite pass_bool.
  - by rewrite pass_num.
  - by rewrite pass_str.
  - by rewrite pass_arr.
  - destruct (pass_obj fields) as (fields' & -> & _ & Hget). simpl.
    rewrite (Hget k Hk). by destruct (assoc k fields); simpl; rewrite ?Hdflt.
Qed.

Lemma pass_empty_obj : pass (JObj []) = JObj [].
Proof.
  destruct (pass_obj []) as (fields' & -> & Hkeys & _). by destruct fields'.
Qed.

Lemma pass_chars s : map pass (chars s) = chars s.
Proof. induction s as [|c s IH]; simpl; [done|]. by rewrite pass_str, IH. Qed.

Lemma pass_py_iter v : py_iter (pass v) = map pass <$> py_iter v.
Proof.
  destruct v as [|b|n|s|items|fields]; simpl.
  - by rewrite pass_null.
  - by rewrite pass_bool.
  - by rewrite pass_num.
  - rewrite pass_str. simpl. by rewrite pass_chars.
  - by rewrite pass_arr.
  - destruct (pass_obj fields) as (fields' & -> & Hkeys & _). simpl. f_equal.
    rewrite map_map. simpl.
    transitivity (map JStr (map fst fields')); [by rewrite map_map|].
    rewrite Hkeys, !map_map. apply map_ext. intros [k v]. simpl.
    by rewrite pass_str.
Qed.

Lemma pass_eq_str v s : eq_str (pass v) s = eq_str v s.
Proof.
  destruct v as [|b|n|s'|items|fields]; simpl.
  - by rewrite pass_null.
  - by rewrite pass_bool.
  - by rewrite pass_num.
  - by rewrite pass_str.
  - by rewrite pass_arr.
  - by destruct (pass_obj fields) as (fields' & -> & _).
Qed.

Context `{Externals}.

Lemma pass_icd10_prefix_match v :
  icd10_prefix_match (pass v) = icd10_prefix_match v.
Proof.
  unfold icd10_prefix_match. destruct qualifying_icd10; [done|].
  destruct v as [|b|n|s'|items|fields]; simpl.
  - by rewrite pass_null.
  - by rewrite pass_bool.
  - by rewrite pass_num.
  - by rewrite pass_str.
  - by rewrite pass_arr.
  - by destruct (pass_obj fields) as (fields' & -> & _).
Qed.

Lemma pass_coding_qualifies coding :
  coding_qualifies (pass coding) = coding_qualifies coding.
Proof.
  unfold coding_qualifies.
  rewrite (pass_py_get coding "code" (JStr "")) by (done || apply pass_str).
  rewrite (pass_py_get coding "system" (JStr "")) by (done || apply pass_str).
  destruct (py_get coding "code" (JStr "")) as [code_value|]; simpl; [|done].
  destruct (py_get coding "system" (JStr "")) as [system|]; simpl; [|done].
  destruct system as [|b|n|sys|items|fields]; simpl.
  - by rewrite pass_null.
  - by rewrite pass_bool.
  - by rewrite pass_num.
  - rewrite pass_str, pass_icd10_prefix_match.
    by rewrite (existsb_pointwise _ _ _ (fun q => pass_eq_str code_value q)).
  - by rewrite pass_arr.
  - by destruct (pass_obj fields) as (fields' & -> & _).
Qed.

Lemma any_of_map {A : Type} (body : A -> option bool) (g : A -> A) (l : list A) :
  (forall x, body (g x) = body x) -> any_of body (map g l) = any_of body l.
Proof. intros Hg. induction l as [|x l IH]; simpl; [done|]. by rewrite Hg, IH. Qed.

Lemma pass_resource_qualifies resource :
  resource_qualifies (pass resource) = resource_qualifies resource.
Proof.
  unfold resource_qualifies.
  rewrite (pass_py_get resource "resourceType" JNull) by (done || apply pass_null).
  destruct (py_get resource "resourceType" JNull) as [resource_type|]; simpl; [|done].
  rewrite pass_eq_str. destruct (eq_str resource_type "Condition"); [|done].
  rewrite (pass_py_get resource "code" (JObj [])) by (done || apply pass_empty_obj).
  destruct (py_get resource "code" (JObj [])) as [code|]; simpl; [|done].
  rewrite (pass_py_get code "coding" (JArr [])) by (done || by rewrite pass_arr).
  destruct (py_get code "coding" (JArr [])) as [codings|]; simpl; [|done].
  rewrite pass_py_iter.
  destruct (py_iter codings) as [items|]; simpl; [|done].
  apply any_of_map, pass_coding_qualifies.
Qed.
End PassFacts.

(** ** The qualifying-condition check and the prepared bundle *)

Section QualifyingCheck.
Context `{Externals}.

Lemma resource_qualifies_set_id fields v :
  resource_qualifies (JObj (set_field "id" v fields)) = resource_qualifies (JObj fields).
Proof.
  unfold resource_qualifies. simpl.
  by rewrite !(assoc_set_field_ne "id") by done.
Qed.

Lemma rewrite_entry_qualifies ref_map entry entry' :
  rewrite_entry ref_map entry = Some entry' ->
  entry_qualifies entry' = entry_qualifies entry.
Proof.
  unfold rewrite_entry, entry_qualifies.
  destruct entry as [| | | | |efields]; try done. simpl.
  destruct (default (JObj []) (assoc "resource" efields)) as [| | | | |rfields] eqn:Hres;
    try done.
  cbn [py_get mbind option_bind].
  destruct (default (JStr "") (assoc "fullUrl" efields)) as [| | |url| |]; try done.
  intros Hentry.
  assert (Hshape : exists resource1,
             resource_qualifies resource1 = resource_qualifies (JObj rfields)
             /\ entry' =
                JObj (set_field "request"
                        (JObj [("method", JStr "PUT");
                               ("url", match entry_final_id (JStr url) (JObj rfields) with
                                       | Some rid =>
                                           if py_truthy rid
                                           then JStr (py_format
                                                        (default (JStr "")
                                                           (assoc "resourceType" rfields))
                                                      +:+ "/" +:+ py_format rid)
                                           else default (JStr "") (assoc "resourceType" rfields)
                                       | None => JNull
                                       end)])
                        (set_field "resource"
                           (transform_conditional_to_direct
                              (transform_references_in_resource resource1) ref_map)
                           efields))).
  { destruct (entry_final_id (JStr url) (JObj rfields)) as [rid|]; [|done].
    cbn [mbind option_bind] in Hentry.
    destruct (py_truthy rid); simpl in Hentry; simplify_eq.
    - eexists. split; [apply resource_qualifies_set_id|done].
    - by eexists. }
  destruct Hshape as (resource1 & Hq & ->). simpl.
  rewrite (assoc_set_field_ne "request" "resource") by done.
  rewrite assoc_set_field. simpl.
  pose proof (compose_pass transform_references_in_resource
                (fun v => transform_conditional_to_direct v ref_map) _ _) as Hpass.
  rewrite (@pass_resource_qualifies _ Hpass). exact Hq.
Qed.

Lemma any_of_Forall2 {A : Type} (body : A -> option bool) (l l' : list A) :
  Forall2 (fun x x' => body x' = body x) l l' -> any_of body l' = any_of body l.
Proof. induction 1 as [|x x' l l' Hx _ IH]; simpl; [done|]. by rewrite Hx, IH. Qed.

Lemma rewrite_entries_qualify ref_map (entries entries' : list json) :
  mapM (rewrite_entry ref_map) entries = Some entries' ->
  any_of entry_qualifies entries' = any_of entry_qualifies entries.
Proof.
  intros Hm. apply any_of_Forall2. apply mapM_Some_1 in Hm.
  eapply Forall2_impl; [exact Hm|]. intros e e' He. simpl in He.
  exact (rewrite_entry_qualifies ref_map e e' He).
Qed.
End QualifyingCheck.

Lemma any_of_filter {A : Type} (body : A -> option bool) (l : list A) :
  any_of body l = any_of body (filter (fun x => body x <> Some false) l).
Proof.
  induction l as [|x l IH]; simpl; [done|].
  rewrite filter_cons. destruct (decide (body x <> Some false)) as [Hx|Hx].
  - simpl. destruct (body x) as [[]|]; simpl; [done| |done]. exact IH.
  - apply dec_stable in Hx. rewrite Hx. simpl. exact IH.
Qed.

Lemma any_of_app_false {A : Type} (body : A -> option bool) (l1 l2 : list A) :
  Forall (fun x => body x = Some false) l1 -> any_of body (l1 ++ l2) = any_of body l2.
Proof. induction 1 as [|x l1 Hx _ IH]; simpl; [done|]. by rewrite Hx. Qed.

Section PreparedBundle.
Context `{Externals}.

Lemma get_order_listed_not_condition entry k :
  get_order entry = Some k -> k <> 99 -> entry_qualifies entry = Some false.
Proof.
  unfold get_order, entry_qualifies, resource_qualifies.
  destruct entry as [| | | | |efields]; try done. simpl.
  destruct (default (JObj []) (assoc "resource" efields)) as [| | | | |rfields];
    try done. simpl.
  destruct (assoc "resourceType" rfields) as [[| | |kind| |]|]; simpl;
    try done; try (intros [= <-]; done).
  destruct (String.eqb_spec kind "Condition") as [->|Hkind]; [|done].
  intros [= <-]. done.
Qed.

Lemma sorted_entries_qualify (entries sorted : list json) :
  py_sorted get_order entries = Some sorted ->
  any_of entry_qualifies sorted = any_of entry_qualifies entries.
Proof.
  intros Hsorted.
  destruct (py_sorted_spec _ _ _ Hsorted) as (Hperm & _ & Hstable).
  pose proof (py_sorted_keys _ _ _ Hsorted) as Hkeys.
  assert (Hrelevant : forall l : list json,
             Forall (fun e => is_Some (get_order e)) l ->
             filter (fun e => entry_qualifies e <> Some false) l
             = filter (fun e => entry_qualifies e <> Some false)
                 (filter (fun e => get_order e = Some 99) l)).
  { intros l Hl. rewrite list_filter_filter. apply filter_ext_Forall.
    eapply Forall_impl; [exact Hl|]. intros e [k Hk]. simpl.
    split; [|tauto]. intros Hq. split; [done|].
    destruct (decide (k = 99)) as [->|Hne]; [done|].
    by rewrite (get_order_listed_not_condition e k Hk Hne) in Hq. }
  rewrite (any_of_filter _ sorted), (any_of_filter _ entries).
  rewrite (Hrelevant sorted) by (by rewrite Hperm).
  rewrite (Hrelevant entries) by done.
  by rewrite Hstable.
Qed.

Lemma synthesized_not_condition stub :
  synthesized stub -> resource_qualifies stub = Some false.
Proof.
  intros [npi|ref s Hs|ref s Hs].
  - done.
  - unfold create_location_from_ref in Hs.
    destruct (parse_identifier_ref ref) as [[system value]|]; simpl in Hs; [|done].
    by simplify_eq.
  - unfold create_organization_from_ref in Hs.
    destruct (parse_identifier_ref ref) as [[system value]|]; simpl in Hs; [|done].
    by simplify_eq.
Qed.

Lemma stub_entries_do_not_qualify conditional_refs :
  Forall (fun e => entry_qualifies e = Some false) (new_stub_entries conditional_refs).
Proof.
  apply Forall_forall. intros entry Hin.
  destruct (new_stub_entries_synthesized _ _ Hin) as (stub & id & Hsyn & _ & ->).
  unfold entry_qualifies. simpl. by apply synthesized_not_condition.
Qed.

(** The entries of the bundle that [prepare_bundle] submits: the stubs
    and the entries of the bundle as read, sorted, each rewritten. *)
Lemma prepare_bundle_entries bundle bundle' sub_bundles :
  prepare_bundle bundle = Some (bundle', sub_bundles) ->
  exists items conditional_refs sorted ref_map items',
    bundle_entries bundle = Some items
    /\ collect_conditional_refs items ∅ = Some conditional_refs
    /\ py_sorted get_order (new_stub_entries conditional_refs ++ items) = Some sorted
    /\ mapM (rewrite_entry ref_map) sorted = Some items'
    /\ bundle_entries bundle' = Some items'
    /\ split_bundle_entries bundle' 400 = Some sub_bundles.
Proof.
  unfold prepare_bundle.
  destruct (inject_referenced_resources bundle) as [bundle1|] eqn:Hinject;
    simpl; [|done].
  destruct (inject_entries _ _ Hinject)
    as (fields & fields1 & items & conditional_refs & -> & -> & Hitems & Hrefs & Hitems1).
  unfold reorder_bundle_entries. unfold bundle_entries in Hitems1.
  destruct (py_get (JObj fields1) "entry" (JArr [])) as [entries1|] eqn:Hentries1;
    simpl in *; [|done].
  rewrite Hitems1. simpl.
  destruct (py_sorted get_order (new_stub_entries conditional_refs ++ items))
    as [sorted|] eqn:Hsorted; simpl; [|done].
  destruct (build_conditional_reference_map _) as [ref_map|]; simpl; [|done].
  unfold rewrite_entries. simpl.
  rewrite !(assoc_set_field_ne "type" "entry") by done.
  rewrite !assoc_set_field. simpl.
  destruct (mapM (rewrite_entry ref_map) sorted) as [items'|] eqn:Hrewrite;
    simpl; [|done].
  destruct (split_bundle_entries _ 400) as [subs|] eqn:Hsplit; simpl; [|done].
  intros [= <- <-].
  exists items, conditional_refs, sorted, ref_map, items'.
  repeat (split; [done|]). split; [|done].
  unfold bundle_entries. simpl. by rewrite assoc_set_field.
Qed.

(** The check on the prepared bundle and the check on the bundle as
    read. *)
Lemma prepared_bundle_qualifies bundle bundle' sub_bundles :
  prepare_bundle bundle = Some (bundle', sub_bundles) ->
  has_qualifying_condition bundle' = has_qualifying_condition bundle.
Proof.
  intros Hprepare.
  destruct (prepare_bundle_entries _ _ _ Hprepare)
    as (items & conditional_refs & sorted & ref_map & items'
        & Hitems & _ & Hsorted & Hrewrite & Hitems' & _).
  unfold has_qualifying_condition. rewrite Hitems, Hitems'. simpl.
  rewrite (rewrite_entries_qualify _ _ _ Hrewrite).
  rewrite (sorted_entries_qualify _ _ Hsorted).
  apply any_of_app_false, stub_entries_do_not_qualify.
Qed.
End PreparedBundle.

(** ** Eligibility and the bundle as read *)

Section EligibilityDecision.
Context `{Externals} {World : Type} (post_bundle : World -> json -> World * bool).

Lemma process_bundle_outcome st w bundle :
  match (process_bundle post_bundle st w bundle).2 with
  | NoPatientFound => classify bundle = Some NoPatient
  | SkippedChoaAdult => classify bundle = Some ChoaAdult
  | Failed => True
  | Uploaded q =>
      (exists patient_entry patient,
          classify bundle = Some (Proceed patient_entry patient))
      /\ exists bundle' sub_bundles,
           prepare_bundle bundle = Some (bundle', sub_bundles)
           /\ has_qualifying_condition bundle' = Some q
  end.
Proof.
  unfold process_bundle.
  destruct (classify bundle) as [[| |patient_entry patient]|]; simpl; try done.
  destruct (prepare_bundle bundle) as [[bundle' sub_bundles]|]; simpl; [|done].
  destruct (post_all post_bundle w sub_bundles) as [w' ok].
  destruct ok; simpl; [|done].
  destruct (has_qualifying_condition bundle') as [q|] eqn:Hq; simpl; [|done].
  destruct (q && _) eqn:Hrecord; simpl.
  - destruct (patient_after_rewrite _ _ ≫= qualifying_record); simpl; [|done].
    apply andb_true_iff in Hrecord as [-> _]. split; by eauto.
  - split; by eauto.
Qed.

(** C2, as amended.  The CHOA gate is decided by [classify] on the bundle
    as read, before anything is injected: the processor skips a bundle as
    a non-pediatric CHOA bundle, or for want of a patient, exactly when
    [classify] says so.  The qualifying-condition check is applied to the
    prepared bundle, after submission; its result on the prepared bundle
    is its result on the bundle as read, so whenever the processor reaches
    a decision, that decision is the one the bundle as read gives, and no
    stub has a part in it. *)
Theorem eligibility_is_that_of_the_bundle_as_read st w bundle :
  ((process_bundle post_bundle st w bundle).2 = SkippedChoaAdult
   <-> classify bundle = Some ChoaAdult)
  /\ ((process_bundle post_bundle st w bundle).2 = NoPatientFound
      <-> classify bundle = Some NoPatient)
  /\ (forall bundle' sub_bundles,
        prepare_bundle bundle = Some (bundle', sub_bundles) ->
        has_qualifying_condition bundle' = has_qualifying_condition bundle)
  /\ (forall q,
        (process_bundle post_bundle st w bundle).2 = Uploaded q ->
        has_qualifying_condition bundle = Some q).
Proof.
  pose proof (process_bundle_outcome st w bundle) as Hout.
  split; [|split; [|split]].
  - split.
    + intros Ho. by rewrite Ho in Hout.
    + intros Hc. unfold process_bundle. by rewrite Hc.
  - split.
    + intros Ho. by rewrite Ho in Hout.
    + intros Hc. unfold process_bundle. by rewrite Hc.
  - apply prepared_bundle_qualifies.
  - intros q Ho. rewrite Ho in Hout.
    destruct Hout as (_ & bundle' & sub_bundles & Hprepare & Hq).
    by rewrite <- (prepared_bundle_qualifies _ _ _ Hprepare).
Qed.
End EligibilityDecision.

(** C2, the claim as stated fails.  The sample bundle passes the gate and
    has a qualifying condition, yet when the store rejects the submission
    the processor reaches no decision on it and records no patient: the
    check comes after the submission.  And the bundle the check is applied
    to is not the bundle as read but the prepared one, which holds the
    practitioner stub. *)
Lemma qualifying_check_follows_submission :
  has_qualifying_condition (H := sample_externals) qualifying_bundle = Some true
  /\ (exists patient_entry patient,
         classify (H := sample_externals) qualifying_bundle
         = Some (Proceed patient_entry patient))
  /\ (process_bundle (H := sample_externals) rejecting_store initial_state O
        qualifying_bundle).2 = Failed
  /\ qualifying_patients
       (process_bundle (H := sample_externals) rejecting_store initial_state O
          qualifying_bundle).1.1 = []
  /\ (process_bundle (H := sample_externals) accepting_store initial_state O
        qualifying_bundle).2 = Uploaded true
  /\ exists bundle' sub_bundles stub_entry,
       prepare_bundle (H := sample_externals) qualifying_bundle
       = Some (bundle', sub_bundles)
       /\ bundle' <> qualifying_bundle
       /\ bundle_entries bundle' ≫= head = Some stub_entry
       /\ entry_kind stub_entry = "Practitioner".
Proof.
  split; [vm_compute; reflexivity|].
  split; [eexists _, _; vm_compute; reflexivity|].
  split; [vm_compute; reflexivity|].
  split; [vm_compute; reflexivity|].
  split; [vm_compute; reflexivity|].
  eexists _, _, _. split; [vm_compute; reflexivity|].
  split; [discriminate|]. split; vm_compute; reflexivity.
Qed.

(** ** The splitter below the ceiling *)

Lemma py_slice_take_drop {A : Type} (l : list A) (lo s : Z) :
  0 <= lo -> 0 <= s ->
  py_slice l lo (lo + s) = take (Z.to_nat s) (drop (Z.to_nat lo) l).
Proof.
  intros Hlo Hs. unfold py_slice, slice_index.
  destruct (Z.ltb_spec lo 0); [lia|]. destruct (Z.ltb_spec (lo + s) 0); [lia|].
  destruct (Z.le_gt_cases lo (Z.of_nat (length l))) as [Hin|Hout].
  - rewrite (Z.min_l lo) by lia.
    destruct (Z.le_gt_cases (lo + s) (Z.of_nat (length l))).
    + rewrite Z.min_l by lia. f_equal. lia.
    + rewrite Z.min_r by lia. rewrite !take_ge; [done| |]; rewrite length_drop; lia.
  - rewrite !Z.min_r by lia. rewrite Z.sub_diag. simpl.
    rewrite (drop_ge l (Z.to_nat lo)) by lia. by destruct (Z.to_nat s).
Qed.

Lemma concat_chunks {A : Type} (l : list A) (s count : nat) :
  concat (map (fun k => take s (drop (k * s) l)) (seq 0 count)) = take (count * s) l.
Proof.
  induction count as [|count IH]; [done|].
  rewrite seq_S, map_app, concat_app, IH. simpl.
  rewrite app_nil_r, take_take_drop. f_equal. lia.
Qed.

Lemma range_count_covers (n step : Z) :
  0 < step -> 0 <= n ->
  let count := Z.to_nat ((Z.max 1 n - 0 + step - 1) / step) in
  (1 <= count)%nat /\ n <= Z.of_nat count * step.
Proof.
  intros Hstep Hn. simpl.
  pose proof (Z.div_mod (Z.max 1 n - 0 + step - 1) step ltac:(lia)) as Hdiv.
  pose proof (Z.mod_pos_bound (Z.max 1 n - 0 + step - 1) step Hstep) as Hmod.
  assert (Hq : 1 <= (Z.max 1 n - 0 + step - 1) / step).
  { apply Z.div_le_lower_bound; lia. }
  split; [lia|]. rewrite Z2Nat.id by lia. nia.
Qed.

Lemma py_filter_total (p : json -> option bool) (f : json -> bool) (l : list json) :
  Forall (fun e => p e = Some (f e)) l ->
  py_filter p l = Some (filter (fun e => f e = true) l).
Proof.
  induction 1 as [|e l He _ IH]; simpl; [done|].
  rewrite He, IH. simpl. rewrite filter_cons.
  destruct (f e); by case_decide.
Qed.

Lemma foundational_iff_precedence entry :
  foundational entry = false <-> kind_precedence (entry_kind entry) = 99.
Proof.
  unfold foundational.
  destruct (kind_precedence_range (entry_kind entry)) as [[_ Hr]|[_ Hr]].
  - split; [intros Hf; apply Z.ltb_ge in Hf; lia|lia].
  - rewrite Hr. done.
Qed.

Lemma other_entries_sorted (entries sorted : list json) :
  Forall (fun e => sortable_entry e = true) entries ->
  py_sorted get_order entries = Some sorted ->
  other_entries sorted = other_entries entries.
Proof.
  intros Hsortable Hsorted.
  destruct (py_sorted_spec _ _ _ Hsorted) as (Hperm & _ & Hstable).
  assert (Hsortable' : Forall (fun e => sortable_entry e = true) sorted)
    by (by rewrite Hperm).
  unfold other_entries.
  rewrite (filter_ext_Forall _ (fun e => kind_precedence (entry_kind e) = 99) sorted)
    by (apply Forall_forall; intros; apply foundational_iff_precedence).
  rewrite (filter_ext_Forall _ (fun e => kind_precedence (entry_kind e) = 99) entries)
    by (apply Forall_forall; intros; apply foundational_iff_precedence).
  rewrite !sortable_filter_precedence by done. apply Hstable.
Qed.

Lemma foundational_other_perm (l : list json) :
  foundational_entries l ++ other_entries l ≡ₚ l.
Proof.
  unfold foundational_entries, other_entries.
  rewrite <- (filter_app_complement (fun e => foundational e = true) l) at 3.
  apply Permutation_app_head.
  rewrite (filter_ext_Forall (fun e => foundational e = false)
             (fun e => ~ foundational e = true) l); [done|].
  apply Forall_forall. intros e _. simpl. destruct (foundational e); split; congruence.
Qed.

Lemma py_filter_foundational (l : list json) :
  Forall (fun e => sortable_entry e = true) l ->
  py_filter (fun e => o ← get_order e; Some (o <? 99)) l = Some (foundational_entries l).
Proof.
  intros Hl. apply py_filter_total.
  eapply Forall_impl; [exact Hl|]. intros e He. simpl.
  by rewrite (get_order_sortable e He).
Qed.

Lemma py_filter_other (l : list json) :
  Forall (fun e => sortable_entry e = true) l ->
  py_filter (fun e => o ← get_order e; Some (99 <=? o)) l = Some (other_entries l).
Proof.
  intros Hl.
  rewrite (py_filter_total _ (fun e => negb (foundational e))).
  - f_equal. apply filter_ext_Forall. apply Forall_forall. intros e _. simpl.
    destruct (foundational e); split; done.
  - eapply Forall_impl; [exact Hl|]. intros e He. simpl.
    rewrite (get_order_sortable e He). simpl. unfold foundational.
    f_equal. destruct (Z.ltb_spec (kind_precedence (entry_kind e)) 99);
      destruct (Z.leb_spec 99 (kind_precedence (entry_kind e))); simpl; lia || done.
Qed.

(** The result of the splitter on a bundle that does not fit and whose
    foundational entries stay below the ceiling. *)
Lemma split_bundle_entries_chunks (fields : list (string * json)) (entries sorted : list json)
    (max_entries : Z) :
  field (JObj fields) "entry" (JArr []) = JArr entries ->
  Forall (fun e => sortable_entry e = true) entries ->
  py_sorted get_order entries = Some sorted ->
  max_entries < Z.of_nat (length entries) ->
  Z.of_nat (length (foundational_entries sorted)) < max_entries ->
  exists size count,
    Z.of_nat size = max_entries - Z.of_nat (length (foundational_entries sorted))
    /\ (1 <= count)%nat
    /\ (length (other_entries sorted) <= count * size)%nat
    /\ split_bundle_entries (JObj fields) max_entries
       = Some (map (sub_bundle_of (field (JObj fields) "type" (JStr "transaction"))
                      (foundational_entries sorted) (other_entries sorted) size)
                   (seq 0 count)).
Proof.
  intros Hentries Hsortable Hsorted Hbig Hfew.
  assert (Hsortable' : Forall (fun e => sortable_entry e = true) sorted).
  { destruct (py_sorted_spec _ _ _ Hsorted) as (Hperm & _). by rewrite Hperm. }
  set (step := max_entries - Z.of_nat (length (foundational_entries sorted))).
  assert (Hstep : 0 < step) by (unfold step; lia).
  destruct (range_count_covers (Z.of_nat (length (other_entries sorted))) step Hstep
              ltac:(lia)) as [Hcount Hcover].
  exists (Z.to_nat step),
    (Z.to_nat ((Z.max 1 (Z.of_nat (length (other_entries sorted))) - 0 + step - 1) / step)).
  split; [lia|]. split; [exact Hcount|]. split; [nia|].
  unfold split_bundle_entries. simpl in *. rewrite Hentries. simpl.
  destruct (Z.leb_spec (Z.of_nat (length entries)) max_entries) as [?|_]; [lia|].
  rewrite Hsorted. simpl.
  rewrite py_filter_foundational, py_filter_other by done. simpl.
  fold step. unfold py_range.
  destruct (Z.eqb_spec step 0) as [?|_]; [lia|].
  destruct (Z.ltb_spec 0 step) as [_|?]; [|lia]. simpl.
  f_equal. rewrite map_map. apply map_ext. intros k.
  unfold sub_bundle_of, chunk_of. do 4 f_equal.
  rewrite py_slice_take_drop by lia.
  replace (Z.to_nat (0 + Z.of_nat k * step)) with (k * Z.to_nat step)%nat by nia.
  destruct k as [|k]; [done|].
  destruct (Z.eqb_spec (0 + Z.of_nat (S k) * step) 0) as [?|_]; [nia|done].
Qed.

Lemma all_entries_chunks bundle_type (foundationals others : list json) (size count : nat) :
  all_entries (map (sub_bundle_of bundle_type foundationals others size) (seq 0 (S count)))
  = foundationals ++ take (S count * size) others.
Proof.
  rewrite <- concat_chunks. unfold all_entries.
  change (seq 0 (S count)) with (0%nat :: seq 1 count).
  rewrite <- seq_shift, !map_cons, !map_map. simpl.
  rewrite <- app_assoc. do 3 f_equal.
Qed.

Lemma length_chunk_of (others : list json) (size k : nat) :
  (length (chunk_of others size k) <= size)%nat.
Proof. unfold chunk_of. rewrite length_take. lia. Qed.

Lemma filter_none {A : Type} (P : A -> Prop) `{!forall x, Decision (P x)} (l : list A) :
  Forall (fun x => ~ P x) l -> filter P l = [].
Proof. induction 1 as [|x l Hx _ IH]; [done|]. by rewrite filter_cons_False. Qed.

Lemma chunk_of_others_not_foundational (l : list json) (size k : nat) :
  foundational_entries (chunk_of (other_entries l) size k) = [].
Proof.
  apply filter_none. unfold chunk_of. apply Forall_take, Forall_drop.
  apply Forall_forall. intros e He. unfold other_entries in He.
  apply list_elem_of_filter in He as [He _]. congruence.
Qed.

Lemma other_entries_app (l1 l2 : list json) :
  other_entries (l1 ++ l2) = other_entries l1 ++ other_entries l2.
Proof. apply filter_app. Qed.

Lemma other_entries_foundational (l : list json) :
  other_entries (foundational_entries l) = [].
Proof.
  apply filter_none, Forall_forall. intros e He. unfold foundational_entries in He.
  apply list_elem_of_filter in He as [He _]. congruence.
Qed.

Lemma other_entries_idemp (l : list json) :
  other_entries (other_entries l) = other_entries l.
Proof.
  unfold other_entries. rewrite list_filter_filter.
  apply filter_ext_Forall, Forall_forall. intros e _. simpl. tauto.
Qed.

(** The contract of the splitter where it is kept: on a bundle whose entries
    have a sort key, and which either fits the ceiling or has fewer
    foundational entries than the ceiling, the splitter returns at least one
    sub-bundle, none larger than the ceiling; together they hold exactly the
    entries of the bundle, those that are not foundational in their
    original order, the foundational ones in the first sub-bundle only. *)
Lemma split_bundle_entries_below_ceiling (fields : list (string * json))
    (entries : list json) (max_entries : Z) :
  field (JObj fields) "entry" (JArr []) = JArr entries ->
  Forall (fun e => sortable_entry e = true) entries ->
  Z.of_nat (length entries) <= max_entries
  \/ Z.of_nat (length (foundational_entries entries)) < max_entries ->
  exists sub_bundles,
    split_bundle_entries (JObj fields) max_entries = Some sub_bundles
    /\ sub_bundles <> []
    /\ Forall (fun b => exists es,
                  bundle_entries b = Some es /\ Z.of_nat (length es) <= max_entries)
         sub_bundles
    /\ all_entries sub_bundles ≡ₚ entries
    /\ other_entries (all_entries sub_bundles) = other_entries entries
    /\ Forall (fun b => foundational_entries (default [] (bundle_entries b)) = [])
         (tail sub_bundles).
Proof.
  intros Hentries Hsortable Hsize.
  assert (Hown : bundle_entries (JObj fields) = Some entries).
  { unfold bundle_entries. simpl in *. by rewrite Hentries. }
  destruct (Z.le_gt_cases (Z.of_nat (length entries)) max_entries) as [Hfits|Hbig].
  - exists [JObj fields]. split; [|split; [done|split; [|split; [|split]]]].
    + unfold split_bundle_entries. simpl in *. rewrite Hentries. simpl.
      by destruct (Z.leb_spec (Z.of_nat (length entries)) max_entries); [|lia].
    + repeat constructor. by exists entries.
    + unfold all_entries. simpl. by rewrite Hown, app_nil_r.
    + unfold all_entries. simpl. by rewrite Hown, app_nil_r.
    + constructor.
  - destruct Hsize as [?|Hfew]; [lia|].
    assert (Hkeys : Forall (fun e => is_Some (get_order e)) entries).
    { eapply Forall_impl; [exact Hsortable|]. intros e He.
      rewrite (get_order_sortable e He). by eexists. }
    destruct (py_sorted_is_Some get_order entries Hkeys) as [sorted Hsorted].
    destruct (py_sorted_spec _ _ _ Hsorted) as (Hperm & _ & _).
    assert (Hlen : length (foundational_entries sorted)
                   = length (foundational_entries entries)).
    { unfold foundational_entries. by rewrite Hperm. }
    destruct (split_bundle_entries_chunks fields entries sorted max_entries
                Hentries Hsortable Hsorted ltac:(lia) ltac:(lia))
      as (size & count & Hsize & Hcount & Hcover & Hsplit).
    destruct count as [|count]; [lia|].
    eexists. split; [exact Hsplit|]. split; [done|].
    assert (Hall : all_entries
                     (map (sub_bundle_of (field (JObj fields) "type" (JStr "transaction"))
                             (foundational_entries sorted) (other_entries sorted) size)
                          (seq 0 (S count)))
                   = foundational_entries sorted ++ other_entries sorted).
    { rewrite all_entries_chunks. by rewrite take_ge. }
    split; [|split; [|split]].
    + apply Forall_fmap, Forall_forall. intros k _. simpl.
      destruct k as [|k]; eexists; (split; [reflexivity|]).
      * rewrite length_app. pose proof (length_chunk_of (other_entries sorted) size 0). lia.
      * pose proof (length_chunk_of (other_entries sorted) size (S k)). lia.
    + by rewrite Hall, foundational_other_perm.
    + rewrite Hall, other_entries_app, other_entries_foundational, other_entries_idemp.
      simpl. by apply other_entries_sorted.
    + change (seq 0 (S count)) with (0%nat :: seq 1 count). simpl.
      apply Forall_fmap, Forall_forall. intros k Hk. simpl.
      apply elem_of_seq in Hk. destruct k as [|k]; [lia|].
      apply chunk_of_others_not_foundational.
Qed.

(** ** Which inputs the resolver stages accept *)

Section StagesReturn.
Context `{Externals}.




End StagesReturn.


(** * Scenarios of the specification *)

(** A bundle of 900 entries, 3 of them foundational, under ceiling 400: three
    sub-bundles of 3 + 397, 397 and 103 entries. *)
Example scenario_nine_hundred_entries :
  option_map (map (fun b => length (default [] (bundle_entries b))))
    (split_bundle_entries
       (bundle_of (replicate 500 (entry_of_kind "Observation")
                   ++ [entry_of_kind "Patient"; entry_of_kind "Organization";
                       entry_of_kind "Practitioner"]
                   ++ replicate 397 (entry_of_kind "Encounter"))) 400)
  = Some [400; 397; 103]%nat.
Proof. vm_compute. reflexivity. Qed.

(** A resolvable reference is rewritten, an unresolvable one stays verbatim,
    and a temporary id is left to the other pass. *)
Example scenario_unresolved_reference_stays :
  reference_fields (transform_conditional_to_direct referring_resource sample_ref_map)
  = ["Practitioner/abc"; "Location?identifier=sys|val"; "urn:uuid:p1"].
Proof. vm_compute. reflexivity. Qed.

(** One patient that refers to a practitioner by NPI: one practitioner stub,
    placed before the patient, and the reference of the patient rewritten to
    it. *)
Example scenario_practitioner_stub :
  (fun prepared =>
     match prepared with
     | Some (bundle, _) =>
         option_map (map (fun e => (entry_kind e, reference_fields e)))
                    (bundle_entries bundle)
     | None => None
     end)
    (prepare_bundle (H := sample_externals) qualifying_bundle)
  = Some [("Practitioner", []);
          ("Patient", ["Practitioner/practiti-oner--npi--123-456789000000"]);
          ("Condition", ["p1"])].
Proof. vm_compute. reflexivity. Qed.

(** * The theorems at sample inputs *)

Lemma reorder_bundle_entries_stable_sort_witness :
  bundle_entries unordered_bundle
  = Some [entry_of_kind "Observation"; entry_of_kind "Patient";
          entry_of_kind "Condition"; entry_of_kind "Organization";
          entry_of_kind "Encounter"; entry_of_kind "Practitioner"]
  /\ exists fields sorted,
       unordered_bundle = JObj fields
       /\ reorder_bundle_entries unordered_bundle
          = Some (JObj (set_field "entry" (JArr sorted) fields))
       /\ sorted ≡ₚ [entry_of_kind "Observation"; entry_of_kind "Patient";
                     entry_of_kind "Condition"; entry_of_kind "Organization";
                     entry_of_kind "Encounter"; entry_of_kind "Practitioner"].
Proof.
  split; [reflexivity|].
  destruct (reorder_bundle_entries_stable_sort unordered_bundle
              [entry_of_kind "Observation"; entry_of_kind "Patient";
               entry_of_kind "Condition"; entry_of_kind "Organization";
               entry_of_kind "Encounter"; entry_of_kind "Practitioner"])
    as (fields & sorted & Hb & Hr & Hp & _).
  - reflexivity.
  - repeat constructor.
  - exists fields, sorted. repeat split; assumption.
Defined.

Lemma transform_conditional_to_direct_contract_witness :
  direct_valued sample_ref_map
  /\ "Practitioner?identifier=sys|1"
     ∉ reference_fields (transform_conditional_to_direct referring_resource sample_ref_map).
Proof.
  assert (Hdirect : direct_valued sample_ref_map).
  { intros k direct Hk. unfold sample_ref_map in Hk.
    apply lookup_singleton_Some in Hk as [_ <-]. reflexivity. }
  split; [exact Hdirect|].
  apply (proj2 (proj2 (transform_conditional_to_direct_contract
                         referring_resource sample_ref_map)) Hdirect).
  - reflexivity.
  - eexists. vm_compute. reflexivity.
Defined.


Lemma build_conditional_reference_map_last_write_wins_witness :
  exists ref_map,
    build_conditional_reference_map (H := sample_externals)
      (bundle_of [entry_first_claim; entry_second_claim]) = Some ref_map
    /\ ref_map !! "Organization?identifier=urn:org|7" = Some "Organization/org-b".
Proof.
  destruct (build_conditional_reference_map_last_write_wins (H := sample_externals)
              (bundle_of [entry_first_claim; entry_second_claim])
              [entry_first_claim; entry_second_claim])
    as (ref_map & Hmap & Hlookup).
  - reflexivity.
  - repeat constructor.
  - exists ref_map. split; [exact Hmap|]. rewrite Hlookup. vm_compute. reflexivity.
Defined.

Lemma malformed_birth_date_counts_as_pediatric_witness :
  (exists patient_entry patient,
     classify (H := sample_externals) (choa_bundle [("birthDate", JStr "03/02/2015")])
     = Some (Proceed patient_entry patient))
  /\ classify (H := sample_externals) (choa_bundle []) = Some ChoaAdult.
Proof.
  split.
  - destruct (proj2 (proj2 (malformed_birth_date_counts_as_pediatric
                              (H := sample_externals) accepting_store
                              [("resourceType", JStr "Patient");
                               ("birthDate", JStr "03/02/2015")])))
      with (bundle := choa_bundle [("birthDate", JStr "03/02/2015")])
           (entries := default [] (bundle_entries
                                     (choa_bundle [("birthDate", JStr "03/02/2015")])))
           (patient_entry :=
              JObj [("fullUrl", JStr "urn:uuid:p1");
                    ("resource",
                      JObj [("resourceType", JStr "Patient");
                            ("birthDate", JStr "03/02/2015")])])
           (st := initial_state) (w := O)
      as [Hmalformed _].
    + reflexivity.
    + reflexivity.
    + vm_compute. reflexivity.
    + destruct (Hmalformed (JStr "03/02/2015")) as [Hclass _].
      * reflexivity.
      * reflexivity.
      * vm_compute. reflexivity.
      * eexists _, _. exact Hclass.
  - destruct (proj2 (proj2 (malformed_birth_date_counts_as_pediatric
                              (H := sample_externals) accepting_store
                              [("resourceType", JStr "Patient")])))
      with (bundle := choa_bundle [])
           (entries := default [] (bundle_entries (choa_bundle [])))
           (patient_entry :=
              JObj [("fullUrl", JStr "urn:uuid:p1");
                    ("resource", JObj [("resourceType", JStr "Patient")])])
           (st := initial_state) (w := O)
      as [_ Hmissing].
    + reflexivity.
    + reflexivity.
    + vm_compute. reflexivity.
    + destruct Hmissing as [Hclass _]; [left; reflexivity|exact Hclass].
Defined.



Lemma eligibility_is_that_of_the_bundle_as_read_witness :
  (process_bundle (H := sample_externals) accepting_store initial_state O
     qualifying_bundle).2 = Uploaded true
  /\ has_qualifying_condition (H := sample_externals) qualifying_bundle = Some true.
Proof.
  split; [vm_compute; reflexivity|].
  apply (proj2 (proj2 (proj2 (eligibility_is_that_of_the_bundle_as_read
                                (H := sample_externals) accepting_store
                                initial_state O qualifying_bundle))) true).
  vm_compute. reflexivity.
Defined.

(** * Further properties of the resolver *)

(** ** Splitter and orderer *)

(** X1.  Below the ceiling the splitter keeps its contract: on a bundle
    whose entries have a sort key, and which fits the ceiling or has fewer
    foundational entries than the ceiling, it returns at least one
    sub-bundle, none larger than the ceiling; the sub-bundles together hold
    the entries of the bundle and no others, those that are not foundational
    in their original order, and no sub-bundle after the first holds a
    foundational entry. *)
Theorem splitter_contract_below_ceiling (fields : list (string * json))
    (entries : list json) (max_entries : Z) :
  field (JObj fields) "entry" (JArr []) = JArr entries ->
  Forall (fun e => sortable_entry e = true) entries ->
  Z.of_nat (length entries) <= max_entries
  \/ Z.of_nat (length (foundational_entries entries)) < max_entries ->
  exists sub_bundles,
    split_bundle_entries (JObj fields) max_entries = Some sub_bundles
    /\ sub_bundles <> []
    /\ Forall (fun b => exists es,
                  bundle_entries b = Some es /\ Z.of_nat (length es) <= max_entries)
         sub_bundles
    /\ all_entries sub_bundles ≡ₚ entries
    /\ other_entries (all_entries sub_bundles) = other_entries entries
    /\ Forall (fun b => foundational_entries (default [] (bundle_entries b)) = [])
         (tail sub_bundles).
Proof. apply split_bundle_entries_below_ceiling. Qed.

Lemma sort_keyed_sorted_id {A : Type} (l : list (Z * A)) :
  StronglySorted key_le l -> sort_keyed l = l.
Proof.
  induction 1 as [|[k x] l _ IH Hall]; simpl; [done|].
  rewrite IH. destruct l as [|[k' y] l]; simpl; [done|].
  apply Forall_cons in Hall as [Hk _]. unfold key_le in Hk. simpl in Hk.
  by destruct (Z.leb_spec k k'); [|lia].
Qed.

Lemma mapM_keyed_inv (key : json -> option Z) (keyed : list (Z * json)) :
  Forall (fun a => key a.2 = Some a.1) keyed ->
  mapM (fun e => k ← key e; Some (k, e)) (map snd keyed) = Some keyed.
Proof.
  intros Hall. apply mapM_Some_2.
  induction Hall as [|[k e] keyed Hk _ IH]; simpl; constructor; [|exact IH].
  simpl in Hk. by rewrite Hk.
Qed.

Lemma py_sorted_idem (key : json -> option Z) (l out : list json) :
  py_sorted key l = Some out -> py_sorted key out = Some out.
Proof.
  unfold py_sorted. intros Hs.
  destruct (mapM _ l) as [keyed|] eqn:Hm; simpl in Hs; [|done].
  injection Hs as <-. apply mapM_keyed in Hm as [_ Hkeys].
  assert (Hkeys' : Forall (fun a => key a.2 = Some a.1) (sort_keyed keyed)).
  { by rewrite sort_keyed_perm. }
  rewrite (mapM_keyed_inv key _ Hkeys'). simpl.
  by rewrite (sort_keyed_sorted_id _ (sort_keyed_sorted keyed)).
Qed.

Lemma set_field_twice k v v' fields :
  set_field k v (set_field k v' fields) = set_field k v fields.
Proof.
  induction fields as [|[k0 v0] fields IH]; simpl.
  - by rewrite String.eqb_refl.
  - destruct (String.eqb k k0) eqn:Hk; simpl; rewrite Hk; [done|]. by rewrite IH.
Qed.

(** X2.  Ordering is idempotent: a bundle that [reorder_bundle_entries]
    returned is returned unchanged when it is ordered again. *)
Theorem reorder_bundle_entries_idempotent (bundle bundle' : json) :
  reorder_bundle_entries bundle = Some bundle' ->
  reorder_bundle_entries bundle' = Some bundle'.
Proof.
  unfold reorder_bundle_entries.
  destruct bundle as [| | | | |fields]; try done. simpl.
  destruct (py_iter (default (JArr []) (assoc "entry" fields))) as [items|]; simpl; [|done].
  destruct (py_sorted get_order items) as [sorted|] eqn:Hsorted; simpl; [|done].
  intros [= <-]. simpl. rewrite assoc_set_field. simpl.
  rewrite (py_sorted_idem _ _ _ Hsorted). simpl. by rewrite set_field_twice.
Qed.

(** ** Scanner and rewriting passes *)

(** X3.  The scanner adds to the set it is given exactly the conditional
    references of the document: the values, at any depth, of the fields
    named [reference] that are strings with a query marker.  It removes
    nothing from the set, and scanning one document after another collects
    the references of both. *)
Theorem scanner_collects_conditional_references (obj obj' : json) (refs : gset string) :
  extract_conditional_refs_from_resource obj refs = refs ∪ conditional_references obj
  /\ (forall s,
        s ∈ extract_conditional_refs_from_resource obj ∅
        <-> s ∈ reference_fields obj /\ str_contains "?" s = true)
  /\ extract_conditional_refs_from_resource obj'
       (extract_conditional_refs_from_resource obj refs)
     = refs ∪ extract_conditional_refs_from_resource obj ∅
            ∪ extract_conditional_refs_from_resource obj' ∅.
Proof.
  split; [apply extract_accumulates|]. split.
  - intros s. rewrite extract_accumulates. unfold conditional_references.
    rewrite elem_of_union, elem_of_list_to_set, list_elem_of_filter. set_solver.
  - rewrite !extract_accumulates. set_solver.
Qed.

Lemma existsb_flat_map {A B : Type} (f : B -> bool) (g : A -> list B) (l : list A) :
  existsb f (flat_map g l) = existsb (fun x => existsb f (g x)) l.
Proof.
  induction l as [|x l IH]; simpl; [done|]. by rewrite existsb_app, IH.
Qed.

Lemma has_any_conditional_reference_fields (obj : json) :
  has_any_conditional_reference obj
  = existsb (fun s => str_contains "?" s) (reference_fields obj).
Proof.
  induction obj as [| | | |items IH|fields IH] using json_ind; simpl; try done.
  - rewrite existsb_flat_map.
    induction IH as [|x items Hx _ IHitems]; simpl; [done|]. by rewrite Hx, IHitems.
  - rewrite existsb_flat_map.
    induction IH as [|[key value] fields Hv _ IHfields]; simpl; [done|].
    rewrite IHfields. f_equal. simpl in Hv.
    destruct (String.eqb key "reference") eqn:Hkey; simpl; [|exact Hv].
    destruct value as [| | |s| |]; simpl in *; try exact Hv.
    by rewrite !orb_false_r.
Qed.

Lemma has_any_iff_scanner_nonempty (obj : json) :
  has_any_conditional_reference obj = true
  <-> extract_conditional_refs_from_resource obj ∅ <> ∅.
Proof.
  rewrite has_any_conditional_reference_fields, extract_accumulates.
  unfold conditional_references. rewrite existsb_exists. split.
  - intros (s & Hin & Hs) Hempty.
    assert (Hels : s ∈ (∅ ∪ list_to_set
                          (filter (fun s => str_contains "?" s = true)
                             (reference_fields obj)) : gset string)).
    { rewrite elem_of_union, elem_of_list_to_set, list_elem_of_filter.
      right. split; [done|]. by apply list_elem_of_In. }
    rewrite Hempty in Hels. set_solver.
  - intros Hne. apply set_choose_L in Hne as [s Hs].
    rewrite elem_of_union, elem_of_list_to_set, list_elem_of_filter in Hs.
    destruct Hs as [Hs|[Hs Hin]]; [set_solver|].
    exists s. split; [by apply list_elem_of_In|done].
Qed.

(** X4.  [has_any_conditional_reference] and the scanner agree: the check
    says yes exactly for the documents in which the scanner finds a
    reference. *)
Theorem has_any_conditional_reference_iff_scanner_finds (obj : json) :
  has_any_conditional_reference obj = true
  <-> extract_conditional_refs_from_resource obj ∅ <> ∅.
Proof. apply has_any_iff_scanner_nonempty. Qed.

(** X5.  Scanning after rewriting: under a reference map that maps to
    direct references, the conditional references left in the rewritten
    document are those of the document that are no keys of the map; so when
    every conditional reference of the document is a key of the map, the
    rewritten document has no conditional reference at all. *)
Theorem rewriting_leaves_the_unresolved_references
    (obj : json) (ref_map : gmap string string) :
  direct_valued ref_map ->
  extract_conditional_refs_from_resource
    (transform_conditional_to_direct obj ref_map) ∅
  = extract_conditional_refs_from_resource obj ∅ ∖ dom ref_map
  /\ (extract_conditional_refs_from_resource obj ∅ ⊆ dom ref_map ->
      has_any_conditional_reference (transform_conditional_to_direct obj ref_map)
      = false).
Proof.
  intros Hdirect.
  assert (Heq : extract_conditional_refs_from_resource
                  (transform_conditional_to_direct obj ref_map) ∅
                = extract_conditional_refs_from_resource obj ∅ ∖ dom ref_map).
  { pose proof (transform_reference_fields obj ref_map) as Hall.
    apply set_eq. intros x.
    rewrite !extract_accumulates. unfold conditional_references.
    rewrite elem_of_difference, !elem_of_union, !elem_of_list_to_set,
      !list_elem_of_filter, elem_of_dom.
    split.
    - intros [Hx|[Hx Hin]]; [set_solver|].
      apply list_elem_of_lookup in Hin as [i Hi].
      destruct (Forall2_lookup_r _ _ _ _ _ Hall Hi) as (s & Hs & Hrel).
      unfold rewritten_as in Hrel.
      destruct (str_contains "?" s) eqn:Hcond.
      + destruct (ref_map !! s) as [d|] eqn:Hd.
        * subst x. apply Hdirect in Hd. congruence.
        * subst x. split.
          -- right. split; [done|]. by eapply list_elem_of_lookup_2.
          -- rewrite Hd. by intros [? ?].
      + subst x. congruence.
    - intros [[Hx|[Hx Hin]] Hnot]; [set_solver|].
      right. split; [done|].
      apply list_elem_of_lookup in Hin as [i Hi].
      destruct (Forall2_lookup_l _ _ _ _ _ Hall Hi) as (s' & Hs' & Hrel).
      unfold rewritten_as in Hrel. rewrite Hx in Hrel.
      destruct (ref_map !! x) as [d|] eqn:Hd.
      + exfalso. apply Hnot. by eexists.
      + subst s'. by eapply list_elem_of_lookup_2. }
  split; [exact Heq|].
  intros Hsub.
  destruct (has_any_conditional_reference (transform_conditional_to_direct obj ref_map))
    eqn:Hany; [|done].
  apply has_any_iff_scanner_nonempty in Hany.
  exfalso. apply Hany. rewrite Heq. set_solver.
Qed.

Lemma transform_unresolvable_id (obj : json) (ref_map : gmap string string) :
  Forall (fun s => str_contains "?" s = true -> ref_map !! s = None) (reference_fields obj) ->
  transform_conditional_to_direct obj ref_map = obj.
Proof.
  induction obj as [| | | |items IH|fields IH] using json_ind; simpl; try done.
  - intros Hrefs. f_equal.
    induction IH as [|x items Hx _ IHitems]; simpl in *; [done|].
    apply Forall_app in Hrefs as [Hrx Hritems].
    by rewrite Hx, IHitems.
  - intros Hrefs. f_equal.
    induction IH as [|[key value] fields Hv _ IHfields]; simpl in *; [done|].
    apply Forall_app in Hrefs as [Hrv Hrfields].
    rewrite IHfields by done. f_equal.
    destruct (String.eqb key "reference") eqn:Hkey; simpl.
    + destruct value as [| | |s| |]; simpl in *; try done;
        try (by rewrite (Hv Hrv)).
      destruct (str_contains "?" s) eqn:Hs; [|done].
      apply Forall_cons in Hrv as [Hnone _]. by rewrite (Hnone Hs).
    + by rewrite (Hv Hrv).
Qed.

(** X6.  Rewriting changes nothing when nothing can be resolved: a document
    none of whose conditional references is a key of the map, and so any
    document under the empty map, is returned as it is. *)
Theorem rewriting_without_resolvable_reference_is_identity
    (obj : json) (ref_map : gmap string string) :
  (extract_conditional_refs_from_resource obj ∅ ## dom ref_map ->
   transform_conditional_to_direct obj ref_map = obj)
  /\ transform_conditional_to_direct obj ∅ = obj.
Proof.
  split.
  - intros Hdisjoint. apply transform_unresolvable_id.
    apply Forall_forall. intros s Hin Hs.
    apply not_elem_of_dom. intros Hdom. apply (Hdisjoint s); [|done].
    rewrite extract_accumulates. unfold conditional_references.
    rewrite elem_of_union, elem_of_list_to_set, list_elem_of_filter. by right.
  - apply transform_unresolvable_id. apply Forall_forall. intros s _ _.
    apply lookup_empty.
Qed.

Lemma transform_urn_uuid_reference_text (s : string) :
  transform_urn_uuid_reference (JStr s) = JStr (without_urn_uuid s).
Proof.
  unfold transform_urn_uuid_reference, without_urn_uuid.
  by destruct (str_contains "urn:uuid:" s).
Qed.

Lemma urn_pass_reference_fields (obj : json) :
  reference_fields (transform_references_in_resource obj)
  = map without_urn_uuid (reference_fields obj).
Proof.
  induction obj as [| | | |items IH|fields IH] using json_ind; simpl; try done.
  - induction IH as [|x items Hx _ IHitems]; simpl; [done|].
    by rewrite map_app, Hx, IHitems.
  - induction IH as [|[key value] fields Hv _ IHfields]; simpl; [done|].
    rewrite map_app, IHfields. f_equal. simpl in Hv.
    destruct (String.eqb key "reference") eqn:Hkey; simpl; rewrite ?Hkey; [|exact Hv].
    destruct value as [| | |s| |]; simpl in *; rewrite ?Hkey; try exact Hv.
    unfold without_urn_uuid. by destruct (str_contains "urn:uuid:" s).
Qed.

Lemma urn_pass_skeleton (obj : json) :
  skeleton (transform_references_in_resource obj) = skeleton obj.
Proof.
  induction obj as [| | | |items IH|fields IH] using json_ind; simpl; try done.
  - f_equal. induction IH as [|x items Hx _ IHitems]; simpl; [done|].
    by rewrite Hx, IHitems.
  - f_equal. induction IH as [|[key value] fields Hv _ IHfields]; simpl; [done|].
    rewrite IHfields. f_equal. simpl in Hv.
    destruct (String.eqb key "reference") eqn:Hkey; simpl.
    + destruct value as [| | |s| |]; simpl in *; rewrite ?Hkey;
        try done; try (by rewrite Hv).
      destruct (str_contains "urn:uuid:" s); simpl; rewrite ?Hkey; done.
    + rewrite Hkey. by rewrite Hv.
Qed.

(** X7.  The pass over temporary ids rewrites every reference field, at any
    depth, to its text without the occurrences of ['urn:uuid:'], and leaves
    everything else as it was: field names, field order and every value
    that is not the text of a reference field. *)
Theorem urn_pass_rewrites_reference_text_only (obj : json) :
  reference_fields (transform_references_in_resource obj)
  = map without_urn_uuid (reference_fields obj)
  /\ skeleton (transform_references_in_resource obj) = skeleton obj.
Proof. split; [apply urn_pass_reference_fields|apply urn_pass_skeleton]. Qed.

(** ** Ids and references *)

Lemma string_app_assoc (a b c : string) : (a +:+ b) +:+ c = a +:+ (b +:+ c).
Proof.
  induction a as [|x a IH]; [done|].
  change (String x ((a +:+ b) +:+ c) = String x (a +:+ (b +:+ c))). by rewrite IH.
Qed.

Lemma string_app_nil_r (a : string) : a +:+ "" = a.
Proof.
  induction a as [|x a IH]; [done|].
  change (String x (a +:+ "") = String x a). by rewrite IH.
Qed.

Lemma replace_from_absent (old new s : string) :
  str_contains old s = false -> replace_from old new O s = s.
Proof.
  induction s as [|c s IH]; [done|].
  change (str_contains old (String c s))
    with (String.prefix old (String c s) || str_contains old s).
  intros Hs. apply orb_false_iff in Hs as [Hp Hs].
  change (replace_from old new 0 (String c s))
    with (if String.prefix old (String c s)
          then new +:+ replace_from old new (Nat.pred (String.length old)) s
          else String c (replace_from old new O s)).
  by rewrite Hp, (IH Hs).
Qed.

Lemma replace_from_skip (old new pre s : string) :
  replace_from old new (String.length pre) (pre +:+ s) = replace_from old new O s.
Proof.
  induction pre as [|c pre IH]; simpl; [|exact IH].
  by destruct s.
Qed.

Lemma str_contains_prefix (old s : string) :
  String.prefix old s = true -> str_contains old s = true.
Proof. intros Hp. destruct s; simpl in *; by rewrite Hp. Qed.

Lemma str_replace_prefix (c : ascii) (old new s : string) :
  str_replace (String c old) new (String c old +:+ s)
  = new +:+ str_replace (String c old) new s.
Proof.
  unfold str_replace.
  change (String c old +:+ s) with (String c (old +:+ s)).
  change (replace_from (String c old) new 0 (String c (old +:+ s)))
    with (if String.prefix (String c old) (String c (old +:+ s))
          then new +:+ replace_from (String c old) new
                         (Nat.pred (String.length (String c old))) (old +:+ s)
          else String c (replace_from (String c old) new O (old +:+ s))).
  change (String c (old +:+ s)) with (String c old +:+ s).
  rewrite prefix_app. simpl Nat.pred. by rewrite replace_from_skip.
Qed.

(** X8.  An entry whose [fullUrl] is ['urn:uuid:'] followed by an id (that
    does not hold the marker again) is stored under exactly that id, and the
    pass over temporary ids rewrites a reference to that [fullUrl] to the
    same id: the entry and the references to it stay in step. *)
Theorem temporary_id_and_references_agree (id : string) (resource : json) :
  str_contains "urn:uuid:" id = false ->
  entry_final_id (JStr ("urn:uuid:" +:+ id)) resource = Some (JStr id)
  /\ transform_urn_uuid_reference (JStr ("urn:uuid:" +:+ id)) = JStr id
  /\ transform_urn_uuid_reference (JStr id) = JStr id.
Proof.
  intros Hid.
  assert (Hstrip : str_replace "urn:uuid:" "" ("urn:uuid:" +:+ id) = id).
  { rewrite str_replace_prefix. unfold str_replace.
    by rewrite replace_from_absent. }
  assert (Hprefix : String.prefix "urn:uuid:" ("urn:uuid:" +:+ id) = true)
    by apply prefix_app.
  split; [|split].
  - unfold entry_final_id, startswith. by rewrite Hprefix, Hstrip.
  - unfold transform_urn_uuid_reference.
    by rewrite (str_contains_prefix _ _ Hprefix), Hstrip.
  - unfold transform_urn_uuid_reference. by rewrite Hid.
Qed.

Lemma str_split_segments c s :
  Forall (fun seg => str_contains (String c EmptyString) seg = false) (str_split c s).
Proof.
  induction s as [|c' s IH]; simpl; [by repeat constructor|].
  destruct (Ascii.eqb_spec c' c) as [->|Hne].
  - by constructor.
  - pose proof (str_split_nonempty c s) as Hsplit.
    destruct (str_split c s) as [|h t]; [done|].
    apply Forall_cons in IH as [Hh Ht]. constructor; [|done].
    rewrite str_contains_char_cons, Hh.
    by destruct (Ascii.eqb_spec c' c).
Qed.

(** Splitting and joining with the same separator gives the string back. *)
Lemma str_join_split c s : str_join (String c EmptyString) (str_split c s) = s.
Proof.
  induction s as [|c' s IH]; simpl; [done|].
  pose proof (str_split_nonempty c s) as Hne.
  destruct (Ascii.eqb_spec c' c) as [->|Hc].
  - destruct (str_split c s) as [|h t]; [done|]. simpl in *. by rewrite IH.
  - destruct (str_split c s) as [|h t]; [done|].
    destruct t as [|h' t]; simpl in *; by rewrite <- IH.
Qed.

Lemma str_join_last (sep : string) (l : list string) :
  l <> [] ->
  str_join sep l = last_segment l
  \/ exists base, str_join sep l = base +:+ sep +:+ last_segment l.
Proof.
  induction l as [|x l IH]; [done|]. intros _.
  destruct l as [|y l]; [by left|].
  right. destruct (IH ltac:(done)) as [Hl|[base Hl]].
  - exists x. change (str_join sep (x :: y :: l)) with (x +:+ sep +:+ str_join sep (y :: l)).
    by rewrite Hl.
  - exists (x +:+ sep +:+ base).
    change (str_join sep (x :: y :: l)) with (x +:+ sep +:+ str_join sep (y :: l)).
    rewrite Hl. unfold last_segment. simpl.
    by rewrite !string_app_assoc.
Qed.

Lemma last_segment_elem (l : list string) : l <> [] -> last_segment l ∈ l.
Proof.
  induction l as [|x l IH]; [done|]. intros _.
  destruct l as [|y l]; [apply elem_of_cons; by left|].
  apply elem_of_cons. right. by apply IH.
Qed.

Lemma last_segment_of_split c s :
  str_contains (String c EmptyString) (last_segment (str_split c s)) = false
  /\ (s = last_segment (str_split c s)
      \/ exists base, s = base +:+ String c (last_segment (str_split c s))).
Proof.
  pose proof (str_split_nonempty c s) as Hne.
  split.
  - pose proof (str_split_segments c s) as Hall. rewrite Forall_forall in Hall.
    apply Hall. by apply last_segment_elem.
  - destruct (str_join_last (String c EmptyString) _ Hne) as [Hl|[base Hl]];
      rewrite str_join_split in Hl; [by left|right].
    exists base. exact Hl.
Qed.

(** X9.  An entry whose [fullUrl] does not start with ['urn:uuid:'] but
    contains a slash is stored under the last path segment of that URL: the
    URL ends with a slash followed by the id, and the id holds no slash.
    [get_patient_managing_org] reduces the reference of a service provider
    to its last segment in the same way. *)
Theorem final_id_is_last_path_segment (url : string) (resource : json) :
  startswith url "urn:uuid:" = false ->
  str_contains "/" url = true ->
  exists base id,
    url = base +:+ "/" +:+ id
    /\ str_contains "/" id = false
    /\ entry_final_id (JStr url) resource = Some (JStr id)
    /\ org_of_reference (JStr url) = Some (JStr id).
Proof.
  intros Hurn Hslash.
  destruct (last_segment_of_split "/" url) as [Hlast [Heq|[base Heq]]].
  - rewrite <- Heq in Hlast. congruence.
  - exists base, (last_segment (str_split "/" url)).
    split; [exact Heq|]. split; [exact Hlast|].
    unfold entry_final_id, org_of_reference. by rewrite Hurn, Hslash.
Qed.

(** ** The age threshold *)

Section AgeThreshold.
Context `{Externals}.

(** X10.  A patient whose birth date [strptime] reads is pediatric exactly
    when today is before the twenty-first anniversary of that date; on the
    anniversary itself the patient is an adult. *)
Theorem pediatric_until_twenty_first_birthday
    (fields : list (string * json)) (s : string) (y m d : Z) :
  assoc "birthDate" fields = Some (JStr s) ->
  s <> "" ->
  strptime_ymd s = Some (y, m, d) ->
  exists pediatric,
    is_pediatric (JObj fields) = Some pediatric
    /\ (pediatric = true <-> date_before today (y + 21, m, d)).
Proof.
  intros Hfield Hs Hdate.
  unfold is_pediatric. simpl. rewrite Hfield. simpl.
  destruct s as [|c s]; [done|]. simpl py_truthy. cbv iota.
  eexists. split; [reflexivity|].
  unfold calculate_age. rewrite Hdate.
  unfold date_before. destruct today as [[ty tm] td].
  change (negb (String c s =? "")%string) with true. cbv iota.
  rewrite Z.ltb_lt.
  destruct (Z.ltb_spec tm m); simpl.
  - lia.
  - destruct (Z.eqb_spec tm m); simpl.
    + destruct (Z.ltb_spec td d); lia.
    + lia.
Qed.
End AgeThreshold.

(** ** The processor's counters, its result list and the store *)

Lemma count_outcomes_cons (p : outcome -> bool) (o : outcome) (os : list outcome) :
  count_outcomes p (o :: os) = (if p o then 1 else 0) + count_outcomes p os.
Proof.
  unfold count_outcomes. rewrite filter_cons.
  destruct (p o); case_decide; try done; simpl length; lia.
Qed.

Lemma count_outcomes_nonneg (p : outcome -> bool) (os : list outcome) :
  0 <= count_outcomes p os.
Proof. unfold count_outcomes. lia. Qed.

Section Accounting.
Context `{Externals} {World : Type} (post_bundle : World -> json -> World * bool).

Lemma qualifying_record_shape patient record :
  qualifying_record patient = Some record -> patient_record record.
Proof.
  unfold qualifying_record. intros Hr.
  destruct (py_get patient "name" (JArr [])) as [names|]; simpl in Hr; [|done].
  destruct (if py_truthy names then _ else _) as [patient_name|]; simpl in Hr; [|done].
  destruct (py_get patient "id" (JStr "")) as [patient_id|]; simpl in Hr; [|done].
  destruct (py_get patient "birthDate" (JStr "")) as [birth_date|]; simpl in Hr; [|done].
  destruct (is_pediatric patient) as [pediatric|]; simpl in Hr; [|done].
  injection Hr as <-. by eexists _, _, _, _.
Qed.

(** What one turn of the loop does to the counters, the result list and
    the store. *)
Lemma process_bundle_step st w bundle :
  let st' := (process_bundle post_bundle st w bundle).1.1 in
  let o := (process_bundle post_bundle st w bundle).2 in
  skipped_choa_adult st' = skipped_choa_adult st + (if is_skipped o then 1 else 0)
  /\ processed_count st' = processed_count st + (if is_uploaded o then 1 else 0)
  /\ errors_logged st' = errors_logged st + (if is_failed o then 1 else 0)
  /\ uploaded_count st + (if is_uploaded o then 1 else 0) <= uploaded_count st'
  /\ uploaded_count st'
     <= uploaded_count st + (if is_uploaded o then 1 else 0) + (if is_failed o then 1 else 0)
  /\ bundle_splits st <= bundle_splits st'
  /\ bundle_splits st'
     <= bundle_splits st + (if is_uploaded o then 1 else 0) + (if is_failed o then 1 else 0)
  /\ (qualifying_patients st' = qualifying_patients st
      \/ exists record,
           qualifying_patients st' = qualifying_patients st ++ [record]
           /\ patient_record record
           /\ o = Uploaded true
           /\ Z.of_nat (length (qualifying_patients st)) < DEVICE_COUNT)
  /\ (process_bundle post_bundle st w bundle).1.2 = submitted post_bundle w bundle.
Proof.
  unfold process_bundle, submitted.
  destruct (classify bundle) as [[| |patient_entry patient]|]; simpl;
    try (repeat split; try lia; by left).
  destruct (prepare_bundle bundle) as [[bundle' sub_bundles]|]; simpl;
    [|repeat split; try lia; by left].
  destruct (post_all post_bundle w sub_bundles) as [w' ok].
  assert (Hsplits : bundle_splits st
                    <= (if (1 <? length sub_bundles)%nat
                        then bundle_splits st + 1 else bundle_splits st)
                    <= bundle_splits st + 1).
  { destruct (1 <? length sub_bundles)%nat; lia. }
  destruct ok; simpl; [|repeat split; try lia; by left].
  destruct (has_qualifying_condition bundle') as [q|]; simpl;
    [|repeat split; try lia; by left].
  destruct (q && _) eqn:Hrecord; simpl; [|repeat split; try lia; by left].
  apply andb_true_iff in Hrecord as [-> Hcap]. apply Z.ltb_lt in Hcap.
  destruct (patient_after_rewrite patient_entry patient) as [patient'|]; simpl;
    [|repeat split; try lia; by left].
  destruct (qualifying_record patient') as [record|] eqn:Hr; simpl;
    [|repeat split; try lia; by left].
  repeat split; try lia. right. exists record.
  split; [done|]. split; [by eapply qualifying_record_shape|]. done.
Qed.

(** The same over a run of bundles. *)
Lemma process_bundles_steps st w bundles :
  let st' := (process_bundles post_bundle st w bundles).1.1 in
  let os := (process_bundles post_bundle st w bundles).2 in
  skipped_choa_adult st' = skipped_choa_adult st + count_outcomes is_skipped os
  /\ processed_count st' = processed_count st + count_outcomes is_uploaded os
  /\ errors_logged st' = errors_logged st + count_outcomes is_failed os
  /\ uploaded_count st + count_outcomes is_uploaded os <= uploaded_count st'
  /\ uploaded_count st'
     <= uploaded_count st + count_outcomes is_uploaded os + count_outcomes is_failed os
  /\ bundle_splits st <= bundle_splits st'
  /\ bundle_splits st'
     <= bundle_splits st + count_outcomes is_uploaded os + count_outcomes is_failed os
  /\ (exists added,
        qualifying_patients st' = qualifying_patients st ++ added
        /\ Forall patient_record added
        /\ Z.of_nat (length added) <= count_outcomes is_uploaded os
        /\ Z.of_nat (length (qualifying_patients st'))
           <= Z.max (Z.of_nat (length (qualifying_patients st))) DEVICE_COUNT)
  /\ (process_bundles post_bundle st w bundles).1.2 = foldl (submitted post_bundle) w bundles.
Proof.
  revert st w. induction bundles as [|bundle bundles IH]; intros st w; simpl.
  - unfold count_outcomes. simpl. repeat split; try lia.
    exists []. rewrite app_nil_r. repeat split; [done|simpl; lia|lia].
  - pose proof (process_bundle_step st w bundle) as Hstep. simpl in Hstep.
    destruct (process_bundle post_bundle st w bundle) as [[st1 w1] o]. simpl in Hstep.
    specialize (IH st1 w1). simpl in IH.
    destruct (process_bundles post_bundle st1 w1 bundles) as [[st2 w2] os].
    simpl in *. rewrite !count_outcomes_cons.
    destruct Hstep as (Hs & Hp & He & Hu1 & Hu2 & Hb1 & Hb2 & Hq & Hw).
    destruct IH as (Hs' & Hp' & He' & Hu1' & Hu2' & Hb1' & Hb2' & Hq' & Hw').
    repeat split; try lia.
    + destruct Hq' as (added & Hadded & Hshape & Hlen & Hmax).
      destruct Hq as [Hsame|(record & Hone & Hrec & -> & Hcap)].
      * exists added. rewrite <- Hsame, Hadded. split; [done|]. split; [done|].
        split; [|by rewrite <- Hadded].
        pose proof (count_outcomes_nonneg is_uploaded os).
        destruct (is_uploaded o); lia.
      * exists (record :: added). rewrite Hadded, Hone, <- app_assoc.
        split; [done|]. split; [by constructor|]. simpl is_uploaded. cbv iota.
        split; [simpl length; lia|].
        rewrite Hone in Hmax. rewrite Hadded, Hone, <- app_assoc in Hmax.
        rewrite !length_app in Hmax. rewrite !length_app. simpl length in *. lia.
    + by rewrite Hw', Hw.
Qed.

(** X11.  What reaches the store does not depend on the counters or on the
    number of devices: after the loop the store is what it becomes by
    submitting, in stream order, the sub-bundles of every bundle that passes
    the gate and can be prepared; a bundle without a patient, a skipped CHOA
    bundle and a bundle that cannot be prepared send nothing. *)
Theorem store_receives_the_prepared_bundles
    (st : loader_state) (w : World) (batches : list (list json)) :
  (process_synthea_bundles post_bundle w batches).1.2
  = foldl (submitted post_bundle) w (concat batches)
  /\ (process_bundles post_bundle st w (concat batches)).1.2
     = (process_synthea_bundles post_bundle w batches).1.2
  /\ forall bundle,
       (forall patient_entry patient,
           classify bundle <> Some (Proceed patient_entry patient))
       \/ prepare_bundle bundle = None ->
       (process_bundle post_bundle st w bundle).1.2 = w.
Proof.
  pose proof (process_bundles_steps initial_state w (concat batches)) as Hinit.
  pose proof (process_bundles_steps st w (concat batches)) as Hst.
  simpl in Hinit, Hst.
  destruct Hinit as (_ & _ & _ & _ & _ & _ & _ & _ & Hinit).
  destruct Hst as (_ & _ & _ & _ & _ & _ & _ & _ & Hst).
  unfold process_synthea_bundles. split; [done|]. split; [by rewrite Hinit, Hst|].
  intros bundle Hno.
  pose proof (process_bundle_step st w bundle) as Hstep. simpl in Hstep.
  destruct Hstep as (_ & _ & _ & _ & _ & _ & _ & _ & ->).
  unfold submitted.
  destruct (classify bundle) as [[| |patient_entry patient]|]; try done.
  destruct Hno as [Hno| ->]; [|done]. by destruct (Hno patient_entry patient).
Qed.

(** X12.  The counters account for every bundle of the stream: each bundle
    has one of four outcomes; [skipped_choa_adult] counts the skipped CHOA
    bundles, [processed_count] the bundles processed to the end and the
    handler has logged one error for each failure; [uploaded_count] lies
    between the number of bundles processed to the end and that number
    plus the failures, and so does the number of splits stay below that
    bound. *)
Theorem counters_account_for_every_bundle (w : World) (batches : list (list json)) :
  let st := (process_synthea_bundles post_bundle w batches).1.1 in
  let os := (process_synthea_bundles post_bundle w batches).2 in
  count_outcomes is_without_patient os + count_outcomes is_skipped os
  + count_outcomes is_uploaded os + count_outcomes is_failed os
  = Z.of_nat (length (concat batches))
  /\ skipped_choa_adult st = count_outcomes is_skipped os
  /\ processed_count st = count_outcomes is_uploaded os
  /\ errors_logged st = count_outcomes is_failed os
  /\ processed_count st <= uploaded_count st <= processed_count st + errors_logged st
  /\ 0 <= bundle_splits st <= processed_count st + errors_logged st.
Proof.
  pose proof (process_bundles_steps initial_state w (concat batches)) as Hsteps.
  pose proof (process_bundles_length post_bundle initial_state w (concat batches)) as Hlen.
  unfold process_synthea_bundles. simpl in *.
  destruct (process_bundles post_bundle initial_state w (concat batches)) as [[st w'] os].
  simpl in *.
  destruct Hsteps as (Hs & Hp & He & Hu1 & Hu2 & Hb1 & Hb2 & _ & _).
  split; [|lia].
  rewrite <- Hlen. clear.
  induction os as [|o os IH]; [done|].
  rewrite !count_outcomes_cons. simpl length. destruct o; simpl; lia.
Qed.

(** X13.  The loader never records more patients than there are devices:
    the result list is no longer than [DEVICE_COUNT] (and empty when that
    is not positive), within a run it only grows at its end, and every
    record in it has the keys [id], [name], [birthDate] and [isPediatric],
    with a text as name and a truth value as [isPediatric]. *)
Theorem never_more_patients_than_devices
    (st : loader_state) (w : World) (batches : list (list json)) :
  Z.of_nat (length (qualifying_patients (process_synthea_bundles post_bundle w batches).1.1))
  <= Z.max 0 DEVICE_COUNT
  /\ Forall patient_record
       (qualifying_patients (process_synthea_bundles post_bundle w batches).1.1)
  /\ exists added,
       qualifying_patients (process_bundles post_bundle st w (concat batches)).1.1
       = qualifying_patients st ++ added
       /\ Forall patient_record added
       /\ Z.of_nat (length (qualifying_patients st ++ added))
          <= Z.max (Z.of_nat (length (qualifying_patients st))) DEVICE_COUNT.
Proof.
  pose proof (process_bundles_steps initial_state w (concat batches)) as Hinit.
  pose proof (process_bundles_steps st w (concat batches)) as Hst.
  simpl in Hinit, Hst.
  destruct Hinit as (_ & _ & _ & _ & _ & _ & _ & (added0 & Hadded0 & Hshape0 & _ & Hmax0) & _).
  destruct Hst as (_ & _ & _ & _ & _ & _ & _ & (added & Hadded & Hshape & _ & Hmax) & _).
  unfold process_synthea_bundles.
  split; [exact Hmax0|]. split; [by rewrite Hadded0|].
  exists added. split; [done|]. split; [done|]. by rewrite <- Hadded.
Qed.
End Accounting.

(** ** The prepared bundle *)

Lemma type_order_get_pass (pass : json -> json) `{!ReferencePass pass} v :
  type_order_get (pass v) = type_order_get v.
Proof.
  destruct v as [|b|n|s|items|fields]; simpl.
  - by rewrite pass_null.
  - by rewrite pass_bool.
  - by rewrite pass_num.
  - by rewrite pass_str.
  - by rewrite pass_arr.
  - by destruct (pass_obj fields) as (fields' & -> & _).
Qed.

Lemma pass_field (pass : json -> json) `{!ReferencePass pass} fields k dflt :
  k <> "reference" -> pass dflt = dflt ->
  field (pass (JObj fields)) k dflt = pass (field (JObj fields) k dflt).
Proof.
  intros Hk Hdflt.
  pose proof (pass_py_get pass (JObj fields) k dflt Hk Hdflt) as Hget.
  destruct (pass_obj fields) as (fields' & Hobj & _). rewrite Hobj in *.
  simpl in *. by injection Hget.
Qed.

Lemma pass_is_string (pass : json -> json) `{!ReferencePass pass} v s :
  pass v = JStr s -> v = JStr s.
Proof.
  destruct v as [|b|n|s'|items|fields].
  - by rewrite pass_null.
  - by rewrite pass_bool.
  - by rewrite pass_num.
  - by rewrite pass_str.
  - by rewrite pass_arr.
  - by destruct (pass_obj fields) as (fields' & -> & _).
Qed.

Section PreparedShape.
Context `{Externals}.

(** The entry that one turn of the rewriting loop leaves behind. *)
Lemma rewrite_entry_shape ref_map entry entry' :
  rewrite_entry ref_map entry = Some entry' ->
  exists efields rfields url rid,
    entry = JObj efields
    /\ default (JObj []) (assoc "resource" efields) = JObj rfields
    /\ default (JStr "") (assoc "fullUrl" efields) = JStr url
    /\ entry_final_id (JStr url) (JObj rfields) = Some rid
    /\ entry' =
       JObj (set_field "request"
               (JObj [("method", JStr "PUT");
                      ("url", if py_truthy rid
                              then JStr (py_format
                                           (default (JStr "") (assoc "resourceType" rfields))
                                         +:+ "/" +:+ py_format rid)
                              else default (JStr "") (assoc "resourceType" rfields))])
               (set_field "resource"
                  (transform_conditional_to_direct
                     (transform_references_in_resource
                        (JObj (if py_truthy rid then set_field "id" rid rfields else rfields)))
                     ref_map)
                  efields)).
Proof.
  unfold rewrite_entry.
  destruct entry as [| | | | |efields]; try done. simpl.
  destruct (default (JObj []) (assoc "resource" efields)) as [| | | | |rfields] eqn:Hres;
    try done.
  cbn [py_get mbind option_bind].
  destruct (default (JStr "") (assoc "fullUrl" efields)) as [| | |url| |] eqn:Hurl;
    try done.
  destruct (entry_final_id (JStr url) (JObj rfields)) as [rid|] eqn:Hrid; [|done].
  cbn [mbind option_bind].
  intros Hentry. exists efields, rfields, url, rid.
  split; [reflexivity|]. split; [exact Hres|]. split; [exact Hurl|].
  split; [exact Hrid|].
  destruct (py_truthy rid); simpl in Hentry; cbv iota; by simplify_eq.
Qed.

Lemma rewrite_entry_order ref_map entry entry' :
  rewrite_entry ref_map entry = Some entry' -> get_order entry' = get_order entry.
Proof.
  intros Hr.
  destruct (rewrite_entry_shape _ _ _ Hr)
    as (efields & rfields & url & rid & -> & Hres & Hurl & Hrid & ->).
  unfold get_order. cbn [py_get mbind option_bind].
  rewrite (assoc_set_field_ne "request" "resource") by done.
  rewrite assoc_set_field. cbn [default from_option id]. rewrite Hres.
  pose proof (compose_pass transform_references_in_resource
                (fun v => transform_conditional_to_direct v ref_map) _ _) as Hpass.
  rewrite (@pass_py_get _ Hpass) by (done || apply pass_str).
  cbn [py_get fmap option_fmap option_map mbind option_bind].
  rewrite (@type_order_get_pass _ Hpass).
  destruct (py_truthy rid); [|done].
  by rewrite (assoc_set_field_ne "id" "resourceType").
Qed.

Lemma rewrite_entry_put_request ref_map entry entry' :
  rewrite_entry ref_map entry = Some entry' -> put_request entry'.
Proof.
  intros Hr.
  destruct (rewrite_entry_shape _ _ _ Hr)
    as (efields & rfields & url & rid & -> & Hres & Hurl & Hrid & ->).
  unfold put_request. simpl. rewrite assoc_set_field. by eexists.
Qed.
End PreparedShape.

(** * The further properties at sample inputs *)

Lemma splitter_contract_below_ceiling_witness :
  exists sub_bundles,
    split_bundle_entries unordered_bundle 4 = Some sub_bundles
    /\ length sub_bundles = 3%nat
    /\ all_entries sub_bundles
       ≡ₚ [entry_of_kind "Observation"; entry_of_kind "Patient";
           entry_of_kind "Condition"; entry_of_kind "Organization";
           entry_of_kind "Encounter"; entry_of_kind "Practitioner"].
Proof.
  destruct (splitter_contract_below_ceiling
              [("resourceType", JStr "Bundle");
               ("entry", JArr [entry_of_kind "Observation"; entry_of_kind "Patient";
                               entry_of_kind "Condition"; entry_of_kind "Organization";
                               entry_of_kind "Encounter"; entry_of_kind "Practitioner"])]
              [entry_of_kind "Observation"; entry_of_kind "Patient";
               entry_of_kind "Condition"; entry_of_kind "Organization";
               entry_of_kind "Encounter"; entry_of_kind "Practitioner"] 4)
    as (sub_bundles & Hsplit & _ & _ & Hperm & _).
  - reflexivity.
  - repeat constructor.
  - right. vm_compute. reflexivity.
  - exists sub_bundles. split; [exact Hsplit|]. split; [|exact Hperm].
    vm_compute in Hsplit. injection Hsplit as <-. reflexivity.
Defined.

Lemma reorder_bundle_entries_idempotent_witness :
  exists bundle',
    reorder_bundle_entries unordered_bundle = Some bundle'
    /\ bundle' <> unordered_bundle
    /\ reorder_bundle_entries bundle' = Some bundle'.
Proof.
  eexists. split; [vm_compute; reflexivity|]. split; [discriminate|].
  apply (reorder_bundle_entries_idempotent unordered_bundle).
  vm_compute. reflexivity.
Defined.

Lemma rewriting_leaves_the_unresolved_references_witness :
  extract_conditional_refs_from_resource
    (transform_conditional_to_direct referring_resource sample_ref_map) ∅
  = extract_conditional_refs_from_resource referring_resource ∅ ∖ dom sample_ref_map.
Proof.
  apply (rewriting_leaves_the_unresolved_references referring_resource sample_ref_map).
  intros k direct Hk. unfold sample_ref_map in Hk.
  apply lookup_singleton_Some in Hk as [_ <-]. reflexivity.
Defined.

Lemma temporary_id_and_references_agree_witness :
  entry_final_id (JStr "urn:uuid:p1") (JObj [("id", JStr "x")])
  = Some (JStr "p1")
  /\ transform_urn_uuid_reference (JStr "urn:uuid:p1") = JStr "p1".
Proof.
  destruct (temporary_id_and_references_agree "p1"
              (JObj [("id", JStr "x")])) as (Hid & Href & _).
  - reflexivity.
  - split; [exact Hid|exact Href].
Defined.

Lemma final_id_is_last_path_segment_witness :
  exists base,
    "http://example.org/fhir/Patient/123" = base +:+ "/" +:+ "123"
    /\ entry_final_id (JStr "http://example.org/fhir/Patient/123")
         (JObj [("id", JStr "abc")])
       = Some (JStr "123").
Proof.
  destruct (final_id_is_last_path_segment
              "http://example.org/fhir/Patient/123" (JObj [("id", JStr "abc")]))
    as (base & id & Hurl & _ & Hid & _).
  - reflexivity.
  - reflexivity.
  - assert (Hvalue : id = "123").
    { vm_compute in Hid. by injection Hid as <-. }
    subst id. exists base. split; [exact Hurl|exact Hid].
Defined.

Lemma pediatric_until_twenty_first_birthday_witness :
  is_pediatric (H := sample_externals) (JObj [("birthDate", JStr "2004-06-16")])
  = Some true
  /\ is_pediatric (H := sample_externals) (JObj [("birthDate", JStr "2004-06-15")])
     = Some false.
Proof.
  split.
  - destruct (pediatric_until_twenty_first_birthday (H := sample_externals)
                [("birthDate", JStr "2004-06-16")] "2004-06-16" 2004 6 16)
      as (pediatric & Hp & Hiff).
    + reflexivity.
    + discriminate.
    + vm_compute. reflexivity.
    + rewrite Hp. f_equal. apply Hiff. vm_compute. right. split; [reflexivity|].
      right. split; reflexivity.
  - vm_compute. reflexivity.
Defined.
